(** * Terminal sidebar: line editing, command dispatch and working directory

    A shallow embedding of the terminal engine of [src/main.ts]
    (class [TerminalView]: constructor, [writePrompt], [handleInput],
    [executeCommand], the [exec] completion callback and
    [changeDirectory]), and the properties of it that the specification
    states.

    JavaScript strings are sequences of UTF-16 code units; they are
    modelled as lists of code units.  The terminal widget, the process
    runner and Node's [os], [path] and [fs] modules are collaborators:
    calls to the first two are recorded as a trace of effects, the others
    are an interface the engine is given ([Node.Env]) together with one
    concrete POSIX instance used to evaluate the engine on examples. *)

From Stdlib Require Import List Arith NArith Lia Bool String Ascii.
Import ListNotations.

(* ===================================================================== *)
(** ** JavaScript strings *)
(* ===================================================================== *)

Module JS.

(** A string is the list of its UTF-16 code units. *)
Definition jsstring : Type := list N.

(** A string literal of the source whose characters are all ASCII. *)
Definition lit (s : string) : jsstring :=
  map N_of_ascii (list_ascii_of_string s).

Definition ESC : N := 27%N.
Definition CR : N := 13%N.
Definition LF : N := 10%N.
Definition BS : N := 8%N.

(** ['\r\n'] *)
Definition CRLF : jsstring := [CR; LF].

(** [s.charCodeAt(0)]: [None] stands for [NaN] (the empty string). *)
Definition charCodeAt0 (s : jsstring) : option N := hd_error s.

(** Truthiness of a string: non-empty. *)
Definition truthy (s : jsstring) : bool :=
  match s with [] => false | _ :: _ => true end.

(** [a === b] on strings. *)
Fixpoint streq (a b : jsstring) : bool :=
  match a, b with
  | [], [] => true
  | x :: a', y :: b' => N.eqb x y && streq a' b'
  | _, _ => false
  end.

(** The code units [String.prototype.trim] strips: ECMAScript WhiteSpace
    and LineTerminator. *)
Definition isWhiteSpace (c : N) : bool :=
  ((9 <=? c) && (c <=? 13) ||
   (c =? 32) || (c =? 160) || (c =? 5760) ||
   (8192 <=? c) && (c <=? 8202) ||
   (c =? 8232) || (c =? 8233) || (c =? 8239) || (c =? 8287) ||
   (c =? 12288) || (c =? 65279))%N.

Fixpoint trimStart (s : jsstring) : jsstring :=
  match s with
  | [] => []
  | c :: r => if isWhiteSpace c then trimStart r else s
  end.

Definition trimEnd (s : jsstring) : jsstring := rev (trimStart (rev s)).

(** [s.trim()] *)
Definition trim (s : jsstring) : jsstring := trimEnd (trimStart s).

(** [s.startsWith(prefix)] *)
Fixpoint startsWith (s prefix : jsstring) {struct prefix} : bool :=
  match prefix, s with
  | [], _ => true
  | _ :: _, [] => false
  | p :: prefix', c :: s' => N.eqb c p && startsWith s' prefix'
  end.

(** [s.substring(n)] and [s.slice(n)] for a literal [n >= 0]. *)
Definition substring (n : nat) (s : jsstring) : jsstring := skipn n s.
Definition slice_from (n : nat) (s : jsstring) : jsstring := skipn n s.

(** [s.slice(0, -1)] *)
Definition slice_drop_last (s : jsstring) : jsstring := removelast s.

End JS.
Import JS.

(* ===================================================================== *)
(** ** The Node interface the engine calls *)
(* ===================================================================== *)

Module Node.

(** The outcome of a call that may raise; [Throw] carries the raised
    error's [message]. *)
Inductive result (A : Type) : Type :=
| Ok (a : A)
| Throw (message : jsstring).
Arguments Ok {A} a.
Arguments Throw {A} message.

(** [process.env]: variable names and values, first binding wins. *)
Definition ProcessEnv : Type := list (jsstring * jsstring).

Fixpoint getenv (e : ProcessEnv) (name : jsstring) : option jsstring :=
  match e with
  | [] => None
  | (k, v) :: e' => if streq k name then Some v else getenv e' name
  end.

(** What the engine uses of [process], [os], [path], [fs] and
    [child_process], as they answer at one moment.
    [child_process_exec command cwd] is how the call
    [exec(command, { cwd, env: process.env }, callback)] ends: it
    returns, the callback then running later, or it raises at once (a
    NUL in the command or in [cwd], a command line the system refuses
    as too long). *)
Record Env : Type := {
  process_env : ProcessEnv;
  os_homedir : result jsstring;
  path_join : jsstring -> jsstring -> jsstring;
  path_isAbsolute : jsstring -> bool;
  path_resolve : jsstring -> result jsstring;
  fs_existsSync : jsstring -> bool;
  fs_statSync_isDirectory : jsstring -> result bool;
  child_process_exec : jsstring -> jsstring -> result unit
}.

(** *** A POSIX instance

    Node's [path.posix] works on the ['/']-separated segments of a
    path; [normalizeString] drops empty and ['.'] segments and lets
    ['..'] remove the segment before it. *)

Definition SLASH : N := 47%N.

Fixpoint segments_aux (cur : jsstring) (s : jsstring) : list jsstring :=
  match s with
  | [] => [rev cur]
  | c :: r =>
      if N.eqb c SLASH then rev cur :: segments_aux [] r
      else segments_aux (c :: cur) r
  end.

Definition segments (s : jsstring) : list jsstring := segments_aux [] s.

Definition push_segment (allowAboveRoot : bool)
    (stack : list jsstring) (seg : jsstring) : list jsstring :=
  if streq seg [] || streq seg (lit ".") then stack
  else if streq seg (lit "..") then
    match stack with
    | top :: below =>
        if streq top (lit "..")
        then (if allowAboveRoot then seg :: stack else stack)
        else below
    | [] => if allowAboveRoot then [seg] else []
    end
  else seg :: stack.

Fixpoint join_segments (l : list jsstring) : jsstring :=
  match l with
  | [] => []
  | [x] => x
  | x :: r => x ++ SLASH :: join_segments r
  end.

Definition normalizeString (p : jsstring) (allowAboveRoot : bool) : jsstring :=
  join_segments (rev (fold_left (push_segment allowAboveRoot) (segments p) [])).

Definition posix_isAbsolute (p : jsstring) : bool :=
  match p with c :: _ => N.eqb c SLASH | [] => false end.

Definition posix_normalize (p : jsstring) : jsstring :=
  match p with
  | [] => lit "."
  | _ =>
      let isAbsolute := posix_isAbsolute p in
      let trailingSeparator := posix_isAbsolute (rev p) in
      let n := normalizeString p (negb isAbsolute) in
      match n with
      | [] => if isAbsolute then [SLASH]
              else if trailingSeparator then lit "./" else lit "."
      | _ =>
          let n' := if trailingSeparator then n ++ [SLASH] else n in
          if isAbsolute then SLASH :: n' else n'
      end
  end.

Definition posix_join (a b : jsstring) : jsstring :=
  match a, b with
  | [], [] => lit "."
  | [], _ => posix_normalize b
  | _, [] => posix_normalize a
  | _, _ => posix_normalize (a ++ SLASH :: b)
  end.

(** [path.resolve(p)] with one argument; [process_cwd] is what
    [process.cwd()] answers, consulted only when [p] is not absolute. *)
Definition posix_resolve (process_cwd : result jsstring) (p : jsstring)
    : result jsstring :=
  let finish (resolvedPath : jsstring) (resolvedAbsolute : bool) :=
    let n := normalizeString resolvedPath (negb resolvedAbsolute) in
    if resolvedAbsolute then SLASH :: n
    else match n with [] => lit "." | _ => n end in
  let step1 := match p with [] => [] | _ => p ++ [SLASH] end in
  if posix_isAbsolute p then Ok (finish step1 true)
  else
    match process_cwd with
    | Throw m => Throw m
    | Ok c =>
        match c with
        | [] => Ok (finish step1 false)
        | _ => Ok (finish (c ++ SLASH :: step1) (posix_isAbsolute c))
        end
    end.

(** A snapshot of a machine: environment variables, the answers of
    [os.homedir()] and [process.cwd()], and the directories and regular
    files that exist. *)
Record World : Type := {
  w_env : ProcessEnv;
  w_homedir : result jsstring;
  w_process_cwd : result jsstring;
  w_dirs : list jsstring;
  w_files : list jsstring
}.

Definition mem (p : jsstring) (l : list jsstring) : bool :=
  existsb (streq p) l.

Definition ENOENT : jsstring := lit "ENOENT: no such file or directory".

(** [exec] refuses a string that holds a NUL; the messages stand for
    those of Node's [ERR_INVALID_ARG_VALUE], which go on to quote the
    value received. *)
Definition has_nul (s : jsstring) : bool := existsb (N.eqb 0%N) s.

Definition posix_exec (command cwd : jsstring) : result unit :=
  if has_nul command then
    Throw (lit "The argument 'command' must be a string without null bytes")
  else if has_nul cwd then
    Throw (lit "The property 'options.cwd' must be a string without null bytes")
  else Ok tt.

Definition posix (w : World) : Env := {|
  process_env := w_env w;
  os_homedir := w_homedir w;
  path_join := posix_join;
  path_isAbsolute := posix_isAbsolute;
  path_resolve := posix_resolve (w_process_cwd w);
  fs_existsSync := fun p => mem p (w_dirs w) || mem p (w_files w);
  fs_statSync_isDirectory := fun p =>
    if mem p (w_dirs w) then Ok true
    else if mem p (w_files w) then Ok false
    else Throw ENOENT;
  child_process_exec := posix_exec
|}.

End Node.
Import Node.

(* ===================================================================== *)
(** ** The terminal view *)
(* ===================================================================== *)

Module Terminal.

(** The one field of [TerminalPluginSettings] the engine reads; the
    others configure the widget. *)
Record TerminalPluginSettings : Type := {
  startupDirectory : jsstring
}.

(** The mutable fields of [TerminalView] the engine reads and writes. *)
Record TerminalView : Type := {
  currentLine : jsstring;
  cwd : jsstring
}.

(** The arguments of one [exec(command, { cwd, env }, callback)]. *)
Record ExecRequest : Type := {
  exec_command : jsstring;
  exec_cwd : jsstring;
  exec_env : ProcessEnv
}.

(** Calls on the collaborators, in the order they are made; a call of
    [exec] is recorded whether it returns or raises. *)
Inductive Effect : Type :=
| Write (text : jsstring)              (* terminal.write(text) *)
| Writeln (text : jsstring)            (* terminal.writeln(text) *)
| Clear                                (* terminal.clear() *)
| ScrollToBottom                       (* terminal.scrollToBottom() *)
| ScrollToTopAfter (ms : N)            (* setTimeout(scroll to top, ms) *)
| Exec (request : ExecRequest).        (* child_process.exec(...) *)

(** *** Methods as state-passing computations

    A method reads and writes the view, makes calls on the
    collaborators and may raise; what was written and assigned before
    a raise stays. *)
Definition M (A : Type) : Type :=
  TerminalView -> result A * TerminalView * list Effect.

Definition ret {A} (a : A) : M A := fun v => (Ok a, v, []).

Definition bind {A B} (m : M A) (k : A -> M B) : M B :=
  fun v =>
    match m v with
    | (Ok a, v1, out1) =>
        match k a v1 with (r, v2, out2) => (r, v2, out1 ++ out2) end
    | (Throw message, v1, out1) => (Throw message, v1, out1)
    end.

Declare Scope method_scope.
Delimit Scope method_scope with method.
Notation "x <- m ;; k" := (bind m (fun x => k))
  (at level 61, m at next level, right associativity) : method_scope.
Notation "m ;; k" := (bind m (fun _ => k))
  (at level 61, right associativity) : method_scope.
Local Open Scope method_scope.

Definition tell (e : Effect) : M unit := fun v => (Ok tt, v, [e]).

(** A call on Node that may raise. *)
Definition call {A} (r : result A) : M A := fun v => (r, v, []).

Definition get_cwd : M jsstring := fun v => (Ok (cwd v), v, []).
Definition set_cwd (d : jsstring) : M unit :=
  fun v => (Ok tt, {| currentLine := currentLine v; cwd := d |}, []).
Definition get_currentLine : M jsstring :=
  fun v => (Ok (currentLine v), v, []).
Definition set_currentLine (l : jsstring) : M unit :=
  fun v => (Ok tt, {| currentLine := l; cwd := cwd v |}, []).

(** [try { body } catch (err) { handler(err.message) }] *)
Definition try_catch (body : M unit) (handler : jsstring -> M unit) : M unit :=
  fun v =>
    match body v with
    | (Ok tt, v1, out1) => (Ok tt, v1, out1)
    | (Throw message, v1, out1) =>
        match handler message v1 with
        | (r, v2, out2) => (r, v2, out1 ++ out2)
        end
    end.

Definition when (b : bool) (m : M unit) : M unit :=
  if b then m else ret tt.

(** [exec(command, { cwd, env }, callback)]: the call is made and
    returns or raises as [child_process] decides. *)
Definition exec (env : Env) (request : ExecRequest) : M unit :=
  fun v =>
    (child_process_exec env (exec_command request) (exec_cwd request),
     v, [Exec request]).

(** *** Rendering *)

(** ['\x1b[31m' + text + '\x1b[0m'] *)
Definition red (text : jsstring) : jsstring :=
  ESC :: lit "[31m" ++ text ++ ESC :: lit "[0m".

(** ['\x1b[32m' + dir + '\x1b[0m $ '] *)
Definition promptFrame (dir : jsstring) : jsstring :=
  ESC :: lit "[32m" ++ dir ++ ESC :: lit "[0m $ ".

(** The template string of [writePrompt]. *)
Definition promptText (newLine : bool) (dir : jsstring) : jsstring :=
  (if newLine then CRLF else []) ++ promptFrame dir.

(** *** constructor *)

(** The value of a [process.env] variable when it is truthy. *)
Definition env_truthy (e : ProcessEnv) (name : jsstring) : option jsstring :=
  match getenv e name with
  | Some s => if truthy s then Some s else None
  | None => None
  end.

(** [process.env.HOME || process.env.USERPROFILE || os.homedir()] *)
Definition home (env : Env) : result jsstring :=
  match env_truthy (process_env env) (lit "HOME") with
  | Some h => Ok h
  | None =>
      match env_truthy (process_env env) (lit "USERPROFILE") with
      | Some u => Ok u
      | None => os_homedir env
      end
  end.

Definition constructor (settings : TerminalPluginSettings) (env : Env)
    : result TerminalView :=
  if truthy (startupDirectory settings)
     && truthy (trim (startupDirectory settings))
  then Ok {| currentLine := []; cwd := trim (startupDirectory settings) |}
  else
    match home env with
    | Ok h => Ok {| currentLine := []; cwd := h |}
    | Throw message => Throw message
    end.

(** *** writePrompt *)

Definition writePrompt (newLine scrollToBottom : bool) : M unit :=
  dir <- get_cwd ;;
  tell (Write (promptText newLine dir)) ;;
  when scrollToBottom (tell ScrollToBottom).

(** *** changeDirectory *)

(** The path handed to [path.resolve]. *)
Definition cdTarget (env : Env) (newPath : jsstring) : M jsstring :=
  if streq newPath (lit "~") then call (os_homedir env)
  else if startsWith newPath (lit "~/") then
    h <- call (os_homedir env) ;;
    ret (path_join env h (slice_from 2 newPath))
  else if negb (path_isAbsolute env newPath) then
    dir <- get_cwd ;;
    ret (path_join env dir newPath)
  else ret newPath.

(** [fs.existsSync(p) && fs.statSync(p).isDirectory()] *)
Definition isExistingDirectory (env : Env) (p : jsstring) : M bool :=
  if fs_existsSync env p then call (fs_statSync_isDirectory env p)
  else ret false.

Definition changeDirectory (env : Env) (newPath : jsstring) : M unit :=
  try_catch
    (targetPath <- cdTarget env newPath ;;
     targetPath <- call (path_resolve env targetPath) ;;
     ok <- isExistingDirectory env targetPath ;;
     if ok then set_cwd targetPath
     else tell (Writeln
                  (red (lit "cd: no such file or directory: " ++ newPath))))
    (fun message => tell (Writeln (red (lit "cd: " ++ message)))) ;;
  writePrompt true true.

(** *** executeCommand and the completion callback of exec *)

Definition execCallback (error : option jsstring) (stdout stderr : jsstring)
    : M unit :=
  when (truthy stdout) (tell (Write stdout)) ;;
  when (truthy stderr) (tell (Write (red stderr))) ;;
  match error with
  | Some message =>
      when (negb (truthy stderr)) (tell (Writeln (red message)))
  | None => ret tt
  end ;;
  writePrompt true true.

Definition executeCommand (env : Env) (command : jsstring) : M unit :=
  if startsWith command (lit "cd ") then
    changeDirectory env (trim (substring 3 command))
  else if streq command (lit "clear") || streq command (lit "cls") then
    tell Clear ;;
    writePrompt false false ;;
    tell (ScrollToTopAfter 10)
  else if streq command (lit "pwd") then
    dir <- get_cwd ;;
    tell (Writeln dir) ;;
    writePrompt true true
  else
    dir <- get_cwd ;;
    exec env {| exec_command := command;
                exec_cwd := dir;
                exec_env := process_env env |}.

(** *** handleInput *)

(** [handleInput], with the method it hands a submitted line to as a
    parameter. *)
Definition handleInputWith (submit : jsstring -> M unit) (data : jsstring)
    : M unit :=
  match charCodeAt0 data with
  | None => ret tt
  | Some code =>
      if (code =? 13)%N then
        tell (Write CRLF) ;;
        line <- get_currentLine ;;
        (if truthy (trim line) then submit (trim line)
         else writePrompt true true) ;;
        set_currentLine []
      else if (code =? 127)%N then
        line <- get_currentLine ;;
        if (0 <? List.length line)%nat then
          set_currentLine (slice_drop_last line) ;;
          tell (Write [BS; 32%N; BS])
        else ret tt
      else if (code =? 3)%N then
        tell (Write (lit "^C" ++ CRLF)) ;;
        set_currentLine [] ;;
        writePrompt true true
      else if (32 <=? code)%N then
        line <- get_currentLine ;;
        set_currentLine (line ++ data) ;;
        tell (Write data)
      else ret tt
  end.

Definition handleInput (env : Env) (data : jsstring) : M unit :=
  handleInputWith (executeCommand env) data.

(** *** One engine instance over time

    Besides the view, the executions that [exec] started (the calls
    that returned) and whose callback has not run yet. *)
Record Engine : Type := {
  view : TerminalView;
  inflight : list ExecRequest
}.

Inductive Event : Type :=
| Input (data : jsstring)
| ExecDone (i : nat) (error : option jsstring) (stdout stderr : jsstring).

(** The calls of [exec] in a trace. *)
Fixpoint started (out : list Effect) : list ExecRequest :=
  match out with
  | [] => []
  | Exec r :: out' => r :: started out'
  | _ :: out' => started out'
  end.

Fixpoint remove_nth {A} (i : nat) (l : list A) : list A :=
  match i, l with
  | _, [] => []
  | O, _ :: l' => l'
  | S i', x :: l' => x :: remove_nth i' l'
  end.

(** A call of [exec] that returns: only such a call leaves an
    execution outstanding. *)
Definition accepted (env : Env) (request : ExecRequest) : bool :=
  match child_process_exec env (exec_command request) (exec_cwd request) with
  | Ok _ => true
  | Throw _ => false
  end.

(** The engine once a handler has ended, normally or by a raise that
    leaves it through the event emitter: the view is as the handler
    left it. *)
Definition after (env : Env) (pending : list ExecRequest)
    (r : result unit * TerminalView * list Effect) : Engine * list Effect :=
  match r with
  | (_, v, out) =>
      ({| view := v;
          inflight := pending ++ filter (accepted env) (started out) |},
       out)
  end.

(** The engine's reaction to one event, in the environment of that
    moment.  The completion of an execution that is not outstanding is
    not an event of the engine. *)
Definition step (env : Env) (ev : Event) (eng : Engine)
    : Engine * list Effect :=
  match ev with
  | Input data =>
      after env (inflight eng) (handleInput env data (view eng))
  | ExecDone i error stdout stderr =>
      match nth_error (inflight eng) i with
      | Some _ =>
          after env (remove_nth i (inflight eng))
                (execCallback error stdout stderr (view eng))
      | None => (eng, [])
      end
  end.

Fixpoint run (evs : list (Env * Event)) (eng : Engine)
    : Engine * list Effect :=
  match evs with
  | [] => (eng, [])
  | (env, ev) :: evs' =>
      match step env ev eng with
      | (eng1, out1) =>
          match run evs' eng1 with
          | (eng2, out2) => (eng2, out1 ++ out2)
          end
      end
  end.

(** A freshly constructed engine. *)
Definition start (settings : TerminalPluginSettings) (env : Env)
    : result Engine :=
  match constructor settings env with
  | Ok v => Ok {| view := v; inflight := [] |}
  | Throw message => Throw message
  end.

(** The text the terminal receives: [writeln] is [write] followed by a
    line break. *)
Fixpoint written (out : list Effect) : jsstring :=
  match out with
  | [] => []
  | Write t :: out' => t ++ written out'
  | Writeln t :: out' => t ++ CRLF ++ written out'
  | _ :: out' => written out'
  end.

(** Projections of the outcome of a method. *)
Definition outcome {A} (r : result A * TerminalView * list Effect) : result A :=
  fst (fst r).
Definition view_after {A} (r : result A * TerminalView * list Effect)
    : TerminalView := snd (fst r).
Definition effects {A} (r : result A * TerminalView * list Effect)
    : list Effect := snd r.

End Terminal.
Import Terminal.

(* ===================================================================== *)
(** ** Vocabulary of the properties *)
(* ===================================================================== *)

Module Props.

Local Open Scope method_scope.

(** What [changeDirectory] has in [targetPath] after its
    [path.resolve] line, or what was raised up to there. *)
Definition resolved (env : Env) (v : TerminalView) (newPath : jsstring)
    : result jsstring :=
  outcome ((t <- cdTarget env newPath ;; call (path_resolve env t)) v).

(** A directory [cd] may assign: a [path.resolve] result that exists
    and is a directory. *)
Definition validated (env : Env) (dir : jsstring) : Prop :=
  exists p, path_resolve env p = Ok dir /\
            fs_existsSync env dir = true /\
            fs_statSync_isDirectory env dir = Ok true.

(** The calls a prompt re-arm with the default arguments makes. *)
Definition rearm (dir : jsstring) : list Effect :=
  [Write (promptText true dir); ScrollToBottom].

(** A command that no built-in test of [executeCommand] accepts. *)
Definition external (command : jsstring) : Prop :=
  (forall rest, command <> lit "cd " ++ rest) /\
  command <> lit "clear" /\ command <> lit "cls" /\ command <> lit "pwd".

(** The specification's single-flight rule: an input event that
    arrives while an execution is outstanding starts no execution. *)
Definition no_second_dispatch : Prop :=
  forall settings env0 eng0 evs env data,
    start settings env0 = Ok eng0 ->
    inflight (fst (run evs eng0)) <> [] ->
    started (snd (step env (Input data) (fst (run evs eng0)))) = [].

(** The specification's rule for the working directory of a fresh
    engine: absolute, an existing directory, and the home directory
    when the configured startup directory is not an existing
    directory. *)
Definition validated_at_construction : Prop :=
  forall settings env v,
    constructor settings env = Ok v ->
    path_isAbsolute env (cwd v) = true /\
    fs_existsSync env (cwd v) = true /\
    fs_statSync_isDirectory env (cwd v) = Ok true /\
    (fs_existsSync env (trim (startupDirectory settings)) = false ->
     home env = Ok (cwd v)).

(** *** A machine to evaluate on *)

Definition laptop : World := {|
  w_env := [(lit "HOME", lit "/home/u")];
  w_homedir := Ok (lit "/home/u");
  w_process_cwd := Ok (lit "/opt/obsidian");
  w_dirs := [lit "/"; lit "/home"; lit "/home/u"; lit "/home/u/notes";
             lit "/tmp"];
  w_files := [lit "/home/u/todo.md"]
|}.

(** The same machine after the directory the host process runs in was
    removed: [process.cwd()] raises. *)
Definition laptop_cwd_gone : World := {|
  w_env := w_env laptop;
  w_homedir := w_homedir laptop;
  w_process_cwd := Throw (lit "ENOENT: no such file or directory, uv_cwd");
  w_dirs := w_dirs laptop;
  w_files := w_files laptop
|}.

(** Keystrokes, one input event each, all on the same machine. *)
Definition keys (w : World) (s : jsstring) : list (Env * Event) :=
  map (fun c => (posix w, Input [c])) s.

Definition at_home : TerminalView :=
  {| currentLine := []; cwd := lit "/home/u" |}.

Definition enter (w : World) : Env * Event := (posix w, Input [CR]).

(** A fresh engine whose working directory is the home directory. *)
Definition fresh : Engine := {| view := at_home; inflight := [] |}.

(** [exec] of a command from the home directory of the example
    machine. *)
Definition from_home (command : jsstring) : ExecRequest :=
  {| exec_command := command; exec_cwd := lit "/home/u";
     exec_env := w_env laptop |}.

(** [ls], Enter, [ps]: the second line is typed while [ls] runs. *)
Definition ls_then_ps : list (Env * Event) :=
  keys laptop (lit "ls") ++ [enter laptop] ++ keys laptop (lit "ps").

Definition cd_notes : list (Env * Event) :=
  keys laptop (lit "cd notes") ++ [enter laptop].

End Props.
Import Props.

(* ===================================================================== *)
(** ** Lexical normalization, as the specification words it *)
(* ===================================================================== *)

Module Lexical.

(** A string without ['/']. *)
Definition slashless (s : jsstring) : bool :=
  negb (existsb (N.eqb SLASH) s).

(** A segment that names an entry: not empty, not ['.'], not ['..'],
    without ['/']. *)
Definition ordinary (s : jsstring) : bool :=
  negb (streq s [] || streq s (lit ".")) && negb (streq s (lit ".."))
  && slashless s.

(** The absolute path that goes through the given names from the
    root: ['/'] for none, ['/a/b'] for [a], [b]. *)
Definition absolute_path (names : list jsstring) : jsstring :=
  SLASH :: join_segments names.

(** Collapsing ['.'] and ['..']: from the directory reached through
    [here], an empty segment and ['.'] stay, ['..'] goes to the parent
    (the root is its own parent) and a name goes down into that entry,
    whatever the file system holds there. *)
Fixpoint walk (here : list jsstring) (segs : list jsstring)
    : list jsstring :=
  match segs with
  | [] => here
  | seg :: segs' =>
      if streq seg [] || streq seg (lit ".") then walk here segs'
      else if streq seg (lit "..") then walk (removelast here) segs'
      else walk (here ++ [seg]) segs'
  end.

End Lexical.
Import Lexical.

(* ===================================================================== *)
(** ** Input on which exec raises *)
(* ===================================================================== *)

Module Raising.

(** The pasted text [a], NUL, [b]: its first code unit is printable, so
    [handleInput] appends the whole of it to the pending line. *)
Definition nul_paste : jsstring := [97; 0; 98]%N.

(** The view once [nul_paste] has been pasted at the home directory. *)
Definition nul_pending : TerminalView :=
  {| currentLine := nul_paste; cwd := lit "/home/u" |}.

(** What [exec] raises for it on the example machine. *)
Definition nul_message : jsstring :=
  lit "The argument 'command' must be a string without null bytes".

End Raising.
Import Raising.

(* ===================================================================== *)
(** ** Keystrokes *)
(* ===================================================================== *)

Module Keys.

(** The code units [handleInput] tests for besides Enter. *)
Definition DEL : N := 127%N.
Definition ETX : N := 3%N.

(** Input that reaches the last branch of [handleInput]: its first
    code unit is at least 32 and is not 127, which the Backspace branch
    takes first. *)
Definition printable (data : jsstring) : bool :=
  match charCodeAt0 data with
  | Some code => (32 <=? code)%N && negb (code =? 127)%N
  | None => false
  end.

(** Input no branch of [handleInput] takes: the empty string, whose
    [charCodeAt(0)] is [NaN], and a first code unit below 32 other than
    Enter and Ctrl+C. *)
Definition ignored (data : jsstring) : bool :=
  match charCodeAt0 data with
  | Some code => (code <? 32)%N && negb (code =? 13)%N && negb (code =? 3)%N
  | None => true
  end.

(** ['\b \b'], what a successful Backspace writes. *)
Definition erase : Effect := Write [BS; 32%N; BS].

(** Input events, each with the environment of its moment. *)
Definition inputs (l : list (Env * jsstring)) : list (Env * Event) :=
  map (fun p => (fst p, Input (snd p))) l.

End Keys.
Import Keys.

(* ===================================================================== *)
(** ** Text settings with a default *)
(* ===================================================================== *)

Module SettingTab.

(** [value || fallback] on strings. *)
Definition or_else (value fallback : jsstring) : jsstring :=
  if truthy value then value else fallback.

(** [DEFAULT_SETTINGS.shell]:
    [os.platform() === 'win32' ? 'powershell.exe'
       : process.env.SHELL || '/bin/bash'];
    [platform] is what [os.platform()] answers. *)
Definition DEFAULT_shell (platform : jsstring) (e : ProcessEnv) : jsstring :=
  if streq platform (lit "win32") then lit "powershell.exe"
  else match getenv e (lit "SHELL") with
       | Some s => or_else s (lit "/bin/bash")
       | None => lit "/bin/bash"
       end.

(** [DEFAULT_SETTINGS.fontFamily]; the quotation mark is code unit 34. *)
Definition DEFAULT_fontFamily : jsstring :=
  lit "Menlo, Monaco, " ++ [34%N] ++ lit "Courier New" ++ [34%N]
    ++ lit ", monospace".

(** [DEFAULT_SETTINGS.selectionColor] *)
Definition DEFAULT_selectionColor : jsstring :=
  lit "rgba(255, 255, 255, 0.3)".

(** What the [onChange] handlers of the text fields assign to
    [settings.shell], [settings.fontFamily], [settings.selectionColor]
    and [settings.startupDirectory]. *)
Definition shell_onChange (platform : jsstring) (e : ProcessEnv)
    (value : jsstring) : jsstring :=
  or_else value (DEFAULT_shell platform e).

Definition fontFamily_onChange (value : jsstring) : jsstring :=
  or_else value DEFAULT_fontFamily.

Definition selectionColor_onChange (value : jsstring) : jsstring :=
  or_else value DEFAULT_selectionColor.

Definition startupDirectory_onChange (value : jsstring)
    : TerminalPluginSettings :=
  {| startupDirectory := value |}.

End SettingTab.
Import SettingTab.

(* ===================================================================== *)
(** ** Strings *)
(* ===================================================================== *)

Section Strings.

Lemma streq_true (a b : jsstring) : streq a b = true <-> a = b.
Proof.
  revert b; induction a as [|x a IH]; intros [|y b]; simpl;
    try (split; [discriminate | congruence]); try tauto.
  rewrite andb_true_iff, N.eqb_eq, IH.
  split; [intros [-> ->]; reflexivity | intros E; inversion E; auto].
Qed.

Lemma streq_false (a b : jsstring) : streq a b = false <-> a <> b.
Proof.
  rewrite <- streq_true. destruct (streq a b); split; congruence.
Qed.

Lemma startsWith_true (s prefix : jsstring) :
  startsWith s prefix = true <-> exists rest, s = prefix ++ rest.
Proof.
  revert s; induction prefix as [|p prefix IH]; intros s; simpl.
  - split; [exists s; reflexivity | reflexivity].
  - destruct s as [|c s].
    + split; [discriminate | intros [rest E]; discriminate].
    + rewrite andb_true_iff, N.eqb_eq, IH. split.
      * intros [-> [rest ->]]. exists rest. reflexivity.
      * intros [rest E]. inversion E. eauto.
Qed.

Lemma startsWith_substring (s prefix : jsstring) :
  startsWith s prefix = true ->
  s = prefix ++ substring (List.length prefix) s.
Proof.
  intros H. apply startsWith_true in H. destruct H as [rest ->].
  unfold substring. rewrite skipn_app, skipn_all, Nat.sub_diag. reflexivity.
Qed.

Lemma trimStart_head (s r : jsstring) (c : N) :
  trimStart s = c :: r -> isWhiteSpace c = false.
Proof.
  induction s as [|x s IH]; simpl; [discriminate|].
  destruct (isWhiteSpace x) eqn:W; [exact IH|].
  intros E; inversion E; subst; exact W.
Qed.

(** [trimStart] keeps a last code unit that is not white space. *)
Lemma trimStart_keeps_last (s : jsstring) (c : N) :
  isWhiteSpace c = false ->
  exists s', trimStart (s ++ [c]) = s' ++ [c].
Proof.
  intros W. induction s as [|x s IH]; simpl.
  - rewrite W. exists []. reflexivity.
  - destruct (isWhiteSpace x); [exact IH|].
    exists (x :: s). reflexivity.
Qed.

Lemma trimEnd_keeps (s : jsstring) (c : N) :
  isWhiteSpace c = false -> trimEnd (s ++ [c]) = s ++ [c].
Proof.
  intros W. unfold trimEnd. rewrite rev_app_distr. simpl. rewrite W.
  simpl. rewrite rev_involutive. reflexivity.
Qed.

Lemma trimEnd_last (s s' : jsstring) (c : N) :
  trimEnd s = s' ++ [c] -> isWhiteSpace c = false.
Proof.
  unfold trimEnd. intros E.
  apply (f_equal (@rev N)) in E.
  rewrite rev_involutive, rev_app_distr in E. simpl in E.
  exact (trimStart_head _ _ _ E).
Qed.

(** A trimmed string that is not empty ends in a code unit that is
    not white space. *)
Lemma trim_last (s : jsstring) :
  trim s <> [] ->
  exists s' c, trim s = s' ++ [c] /\ isWhiteSpace c = false.
Proof.
  intros NE. destruct (exists_last NE) as [s' [c E]].
  exists s', c. split; [exact E|]. exact (trimEnd_last _ _ _ E).
Qed.

Lemma trim_nonempty (s : jsstring) (c : N) :
  isWhiteSpace c = false -> trim (s ++ [c]) <> [].
Proof.
  intros W. unfold trim.
  destruct (trimStart_keeps_last s c W) as [s' ->].
  rewrite trimEnd_keeps by exact W.
  destruct s'; discriminate.
Qed.

Lemma truthy_true (s : jsstring) : truthy s = true <-> s <> [].
Proof. destruct s; simpl; split; congruence. Qed.

Lemma truthy_false (s : jsstring) : truthy s = false <-> s = [].
Proof. destruct s; simpl; split; congruence. Qed.

End Strings.

(* ===================================================================== *)
(** ** Methods *)
(* ===================================================================== *)

Ltac unfold_method :=
  unfold writePrompt, isExistingDirectory, try_catch, when, bind, ret, tell,
    call, get_cwd, set_cwd, get_currentLine, set_currentLine,
    outcome, view_after, effects, rearm in *.

Section Methods.

Variable env : Env.

Local Open Scope method_scope.

(** Choosing the target reads the view and calls Node; it writes
    nothing and assigns nothing. *)
Lemma cdTarget_pure (newPath : jsstring) (v : TerminalView) :
  exists r, cdTarget env newPath v = (r, v, []).
Proof.
  unfold cdTarget.
  destruct (streq newPath (lit "~")); [eexists; reflexivity|].
  destruct (startsWith newPath (lit "~/")).
  - unfold_method. destruct (os_homedir env); eexists; reflexivity.
  - destruct (path_isAbsolute env newPath); eexists; reflexivity.
Qed.

(** [changeDirectory], branch by branch. *)
Lemma changeDirectory_cases (newPath : jsstring) (v : TerminalView) :
  changeDirectory env newPath v =
  match resolved env v newPath with
  | Throw message =>
      (Ok tt, v, Writeln (red (lit "cd: " ++ message)) :: rearm (cwd v))
  | Ok target =>
      if fs_existsSync env target then
        match fs_statSync_isDirectory env target with
        | Ok true =>
            (Ok tt, {| currentLine := currentLine v; cwd := target |},
             rearm target)
        | Ok false =>
            (Ok tt, v,
             Writeln (red (lit "cd: no such file or directory: " ++ newPath))
               :: rearm (cwd v))
        | Throw message =>
            (Ok tt, v,
             Writeln (red (lit "cd: " ++ message)) :: rearm (cwd v))
        end
      else
        (Ok tt, v,
         Writeln (red (lit "cd: no such file or directory: " ++ newPath))
           :: rearm (cwd v))
  end.
Proof.
  destruct (cdTarget_pure newPath v) as [r E].
  unfold changeDirectory, resolved. unfold_method. rewrite E.
  destruct r as [t|m]; [|reflexivity].
  destruct (path_resolve env t) as [target|m]; [|reflexivity].
  cbn [fst snd app].
  destruct (fs_existsSync env target); [|reflexivity].
  destruct (fs_statSync_isDirectory env target) as [[|]|m]; reflexivity.
Qed.

(** [changeDirectory] returns normally, keeps the pending line and
    ends with a prompt for the directory it leaves. *)
Lemma changeDirectory_total (newPath : jsstring) (v : TerminalView) :
  exists v' out,
    changeDirectory env newPath v = (Ok tt, v', out ++ rearm (cwd v')) /\
    currentLine v' = currentLine v.
Proof.
  rewrite changeDirectory_cases.
  destruct (resolved env v newPath) as [target|m].
  - destruct (fs_existsSync env target).
    + destruct (fs_statSync_isDirectory env target) as [[|]|m].
      * exists {| currentLine := currentLine v; cwd := target |}, [].
        split; reflexivity.
      * eexists v, [_]. split; reflexivity.
      * eexists v, [_]. split; reflexivity.
    + eexists v, [_]. split; reflexivity.
  - eexists v, [_]. split; reflexivity.
Qed.

(** A built-in [cd] either leaves the working directory as it was or
    assigns a [path.resolve] result that exists and is a directory. *)
Lemma changeDirectory_validates (newPath : jsstring) (v : TerminalView) :
  let v' := view_after (changeDirectory env newPath v) in
  cwd v' = cwd v \/
  exists p, path_resolve env p = Ok (cwd v') /\
            fs_existsSync env (cwd v') = true /\
            fs_statSync_isDirectory env (cwd v') = Ok true.
Proof.
  rewrite changeDirectory_cases.
  destruct (resolved env v newPath) as [target|m] eqn:R; [|left; reflexivity].
  destruct (fs_existsSync env target) eqn:X; [|left; reflexivity].
  destruct (fs_statSync_isDirectory env target) as [[|]|m] eqn:D;
    try (left; reflexivity).
  right. unfold resolved in R. unfold_method.
  destruct (cdTarget_pure newPath v) as [r E]. rewrite E in R.
  destruct r as [t|m]; [|discriminate]. simpl in *.
  exists t. destruct (path_resolve env t); [|discriminate].
  simpl in R. inversion R; subst. auto.
Qed.

(** The four branches of [executeCommand]. *)
Lemma executeCommand_cd (rest : jsstring) :
  executeCommand env (lit "cd " ++ rest) = changeDirectory env (trim rest).
Proof. reflexivity. Qed.

Lemma executeCommand_clear (command : jsstring) (v : TerminalView) :
  command = lit "clear" \/ command = lit "cls" ->
  executeCommand env command v =
  (Ok tt, v, [Clear; Write (promptText false (cwd v)); ScrollToTopAfter 10]).
Proof. intros [-> | ->]; reflexivity. Qed.

Lemma executeCommand_pwd (v : TerminalView) :
  executeCommand env (lit "pwd") v =
  (Ok tt, v, Writeln (cwd v) :: rearm (cwd v)).
Proof. reflexivity. Qed.

Lemma executeCommand_exec (command : jsstring) (v : TerminalView) :
  external command ->
  executeCommand env command v =
  (child_process_exec env command (cwd v), v,
   [Exec {| exec_command := command;
            exec_cwd := cwd v;
            exec_env := process_env env |}]).
Proof.
  intros (Hcd & Hclear & Hcls & Hpwd). unfold executeCommand.
  destruct (startsWith command (lit "cd ")) eqn:S.
  - apply startsWith_true in S. destruct S as [rest E].
    exfalso. exact (Hcd rest E).
  - apply streq_false in Hclear, Hcls, Hpwd.
    rewrite Hclear, Hcls, Hpwd. reflexivity.
Qed.

(** A command is external or meets exactly the test of one built-in. *)
Lemma command_cases (command : jsstring) :
  (exists rest, command = lit "cd " ++ rest) \/
  command = lit "clear" \/ command = lit "cls" \/ command = lit "pwd" \/
  external command.
Proof.
  destruct (startsWith command (lit "cd ")) eqn:S.
  { left. apply startsWith_true. exact S. }
  right.
  destruct (streq command (lit "clear")) eqn:E1.
  { left. apply streq_true. exact E1. }
  right.
  destruct (streq command (lit "cls")) eqn:E2.
  { left. apply streq_true. exact E2. }
  right.
  destruct (streq command (lit "pwd")) eqn:E3.
  { left. apply streq_true. exact E3. }
  right. repeat split; try (apply streq_false; assumption).
  intros rest E.
  assert (startsWith command (lit "cd ") = true)
    by (apply startsWith_true; eauto).
  congruence.
Qed.

(** Dispatch leaves the pending line alone, and it returns normally
    unless the command is external and [exec] raises; the view is then
    as it was and the call is the only thing recorded. *)
Lemma executeCommand_outcome (command : jsstring) (v : TerminalView) :
  exists r v' out,
    executeCommand env command v = (r, v', out) /\
    currentLine v' = currentLine v /\
    (r = Ok tt \/
     exists message,
       r = Throw message /\ external command /\
       child_process_exec env command (cwd v) = Throw message /\
       v' = v /\
       out = [Exec {| exec_command := command; exec_cwd := cwd v;
                      exec_env := process_env env |}]).
Proof.
  destruct (command_cases command) as [[rest ->]|[C|[C|[->|X]]]].
  - rewrite executeCommand_cd.
    destruct (changeDirectory_total (trim rest) v) as (v' & out & E & L).
    rewrite E. eauto 8.
  - rewrite executeCommand_clear by auto. eauto 8.
  - rewrite executeCommand_clear by auto. eauto 8.
  - rewrite executeCommand_pwd. eauto 8.
  - rewrite executeCommand_exec by exact X.
    destruct (child_process_exec env command (cwd v)) as [[]|m] eqn:E.
    + eauto 8.
    + do 3 eexists. split; [reflexivity|]. split; [reflexivity|].
      right. exists m. auto.
Qed.

(** Dispatch changes the working directory only through a validated
    [cd]. *)
Lemma executeCommand_validates (command : jsstring) (v : TerminalView) :
  let v' := view_after (executeCommand env command v) in
  cwd v' = cwd v \/
  exists p, path_resolve env p = Ok (cwd v') /\
            fs_existsSync env (cwd v') = true /\
            fs_statSync_isDirectory env (cwd v') = Ok true.
Proof.
  destruct (command_cases command) as [[rest ->]|[C|[C|[->|X]]]].
  - rewrite executeCommand_cd. apply changeDirectory_validates.
  - rewrite executeCommand_clear by auto. left; reflexivity.
  - rewrite executeCommand_clear by auto. left; reflexivity.
  - rewrite executeCommand_pwd. left; reflexivity.
  - rewrite executeCommand_exec by exact X. left; reflexivity.
Qed.

(** The completion callback, unfolded. *)
Lemma execCallback_effects (error : option jsstring)
    (stdout stderr : jsstring) (v : TerminalView) :
  execCallback error stdout stderr v =
  (Ok tt, v,
   (if truthy stdout then [Write stdout] else []) ++
   (if truthy stderr then [Write (red stderr)] else []) ++
   (match error with
    | Some message =>
        if truthy stderr then [] else [Writeln (red message)]
    | None => []
    end) ++ rearm (cwd v)).
Proof.
  unfold execCallback. unfold_method.
  destruct stdout, stderr, error; reflexivity.
Qed.

(** Enter on a pending line that is not blank: the echo, then what
    dispatching the trimmed line does, then the pending line is
    cleared. *)
Lemma handleInput_enter_dispatch (data : jsstring) (v v' : TerminalView)
    (out : list Effect) :
  charCodeAt0 data = Some 13%N ->
  trim (currentLine v) <> [] ->
  executeCommand env (trim (currentLine v)) v = (Ok tt, v', out) ->
  handleInput env data v =
  (Ok tt, {| currentLine := []; cwd := cwd v' |}, Write CRLF :: out).
Proof.
  intros Hcode NE E. unfold handleInput, handleInputWith. rewrite Hcode.
  apply truthy_true in NE. unfold_method. simpl. rewrite NE, E.
  simpl. rewrite app_nil_r. reflexivity.
Qed.

(** When dispatching the trimmed line raises, the raise leaves
    [handleInput] before the pending line is cleared. *)
Lemma handleInput_enter_raise (data message : jsstring)
    (v v' : TerminalView) (out : list Effect) :
  charCodeAt0 data = Some 13%N ->
  trim (currentLine v) <> [] ->
  executeCommand env (trim (currentLine v)) v = (Throw message, v', out) ->
  handleInput env data v = (Throw message, v', Write CRLF :: out).
Proof.
  intros Hcode NE E. unfold handleInput, handleInputWith. rewrite Hcode.
  apply truthy_true in NE. unfold_method. simpl. rewrite NE, E.
  reflexivity.
Qed.

End Methods.

(* ===================================================================== *)
(** ** Command dispatch *)
(* ===================================================================== *)

Section Dispatch.

Variable env : Env.

(** C6.  Dispatch tests the built-ins in the order [cd ] prefix,
    [clear]/[cls], [pwd], and runs everything else externally.  A
    command that begins with [cd ] goes to path resolution with the
    trimmed remainder; [clear] and [cls] clear the display and write a
    prompt without a leading line break; [pwd] writes the working
    directory and a line break; any other command is handed to [exec]
    with the engine's working directory and the inherited environment,
    and dispatch then returns or raises as that call does, the view
    unchanged.  The tests are exact and case-sensitive, and every
    command falls under one of the four. *)
Theorem dispatch_priority (command : jsstring) (v : TerminalView) :
  (forall rest, command = lit "cd " ++ rest ->
     executeCommand env command v = changeDirectory env (trim rest) v) /\
  (command = lit "clear" \/ command = lit "cls" ->
     executeCommand env command v =
     (Ok tt, v,
      [Clear; Write (promptText false (cwd v)); ScrollToTopAfter 10])) /\
  (command = lit "pwd" ->
     executeCommand env command v =
     (Ok tt, v, Writeln (cwd v) :: rearm (cwd v))) /\
  (external command ->
     executeCommand env command v =
     (child_process_exec env command (cwd v), v,
      [Exec {| exec_command := command;
               exec_cwd := cwd v;
               exec_env := process_env env |}])) /\
  ((exists rest, command = lit "cd " ++ rest) \/
   command = lit "clear" \/ command = lit "cls" \/ command = lit "pwd" \/
   external command) /\
  external (lit "CD /tmp") /\ external (lit "Clear") /\
  external (lit "PWD") /\ external (lit "pwd ").
Proof.
  split; [|split; [|split; [|split; [|split]]]].
  - intros rest ->. rewrite executeCommand_cd. reflexivity.
  - apply executeCommand_clear.
  - intros ->. apply executeCommand_pwd.
  - apply executeCommand_exec.
  - apply command_cases.
  - unfold external.
    repeat split; try discriminate; intros rest E; discriminate E.
Qed.

(** C9.  The command [cd] alone fails the [cd ] prefix test and the
    three equality tests, and is handed to [exec] like any external
    command: the call made is [exec] of [cd] in the working directory
    with [process.env], the built-in path is not entered (nothing is
    written, the view is unchanged), and dispatch returns or raises as
    that call does.  So is a pending line [cd] followed by blanks,
    which is submitted trimmed: the echo and that call are all Enter
    does. *)
Theorem bare_cd_is_external (v : TerminalView) :
  startsWith (lit "cd") (lit "cd ") = false /\
  streq (lit "cd") (lit "clear") = false /\
  streq (lit "cd") (lit "cls") = false /\
  streq (lit "cd") (lit "pwd") = false /\
  executeCommand env (lit "cd") v =
  (child_process_exec env (lit "cd") (cwd v), v,
   [Exec {| exec_command := lit "cd";
            exec_cwd := cwd v;
            exec_env := process_env env |}]) /\
  effects (handleInput env [CR]
             {| currentLine := lit "cd  "; cwd := cwd v |}) =
  [Write CRLF; Exec {| exec_command := lit "cd";
                       exec_cwd := cwd v;
                       exec_env := process_env env |}] /\
  cwd (view_after (handleInput env [CR]
                     {| currentLine := lit "cd  "; cwd := cwd v |})) = cwd v.
Proof.
  do 5 (split; [reflexivity|]).
  unfold handleInput, handleInputWith, executeCommand, exec. unfold_method.
  simpl. destruct (child_process_exec env _ (cwd v)) as [[]|m];
    split; reflexivity.
Qed.

(** C7.  [pwd] writes the working directory with [writeln], that is
    followed by one line break, and then re-arms the prompt with the
    default arguments of [writePrompt]; the view is unchanged.  The
    directory segment of the prompt is framed by [ESC[32m] before and
    [ESC[0m $ ] after, byte for byte; with the default arguments the
    prompt text opens with a line break of its own. *)
Theorem pwd_output (v : TerminalView) :
  executeCommand env (lit "pwd") v =
  (Ok tt, v, [Writeln (cwd v); Write (promptText true (cwd v));
              ScrollToBottom]) /\
  promptText true (cwd v) =
  CRLF ++ [27; 91; 51; 50; 109]%N ++ cwd v ++ [27; 91; 48; 109; 32; 36; 32]%N /\
  written (effects (executeCommand env (lit "pwd") v)) =
  cwd v ++ CRLF ++ promptText true (cwd v).
Proof.
  repeat split. simpl. rewrite app_nil_r. reflexivity.
Qed.

(** C3.  When an external execution completes, the callback writes
    stdout verbatim exactly when it is not empty, then stderr in the
    red rendering exactly when it is not empty, then the message of
    the failure in the red rendering exactly when there is a failure
    and stderr is empty, and it always ends with a prompt re-arm; the
    message and stderr are never both written, and the view is
    unchanged.  The red rendering of a text is the text between
    [ESC[31m] and [ESC[0m], byte for byte. *)
Theorem exec_completion_output (error : option jsstring)
    (stdout stderr : jsstring) (v : TerminalView) :
  exists out_part err_part msg_part,
    execCallback error stdout stderr v =
    (Ok tt, v, out_part ++ err_part ++ msg_part ++ rearm (cwd v)) /\
    (stdout <> [] /\ out_part = [Write stdout] \/
     stdout = [] /\ out_part = []) /\
    (stderr <> [] /\ err_part = [Write (red stderr)] \/
     stderr = [] /\ err_part = []) /\
    ((exists message,
        error = Some message /\ stderr = [] /\
        msg_part = [Writeln (red message)]) \/
     (error = None \/ stderr <> []) /\ msg_part = []) /\
    (err_part = [] \/ msg_part = []) /\
    (forall text,
       red text = [27; 91; 51; 49; 109]%N ++ text ++ [27; 91; 48; 109]%N).
Proof.
  rewrite execCallback_effects.
  do 3 eexists. split; [reflexivity|].
  split; [|split; [|split; [|split; [|reflexivity]]]].
  - destruct stdout; [right|left]; split; (reflexivity || discriminate).
  - destruct stderr; [right|left]; split; (reflexivity || discriminate).
  - destruct error as [message|].
    + destruct stderr; simpl.
      * left. exists message. auto.
      * right. split; [right; discriminate | reflexivity].
    + right. split; [left|]; reflexivity.
  - destruct stderr; [left; reflexivity|].
    right. destruct error; reflexivity.
Qed.

End Dispatch.

(** An external command that is not a built-in, on the example machine. *)
Lemma dispatch_priority_witness :
  external (lit "ls -la") /\
  executeCommand (posix laptop) (lit "ls -la") at_home =
  (Ok tt, at_home, [Exec {| exec_command := lit "ls -la";
                            exec_cwd := lit "/home/u";
                            exec_env := w_env laptop |}]).
Proof.
  assert (X : external (lit "ls -la")).
  { unfold external.
    repeat split; try discriminate; intros rest E; discriminate E. }
  split; [exact X|].
  apply (dispatch_priority (posix laptop) (lit "ls -la") at_home). exact X.
Defined.

(* ===================================================================== *)
(** ** Line editing *)
(* ===================================================================== *)

Section LineEditor.

Variable env : Env.

Lemma trim_empty : trim [] = [].
Proof. reflexivity. Qed.

(** C8.  On Enter the line break, carriage return and line feed, is
    echoed first.  A pending line that is empty or white space only is
    submitted to nobody, whatever the dispatcher is: the prompt is
    re-armed once and the pending line is cleared.  A pending line that
    is not empty after trimming is submitted, trimmed, to the
    dispatcher, whose outputs follow the echo; when dispatch returns,
    the pending line is cleared.  Dispatch raises exactly when the
    command is external and [exec] raises; the raise then leaves
    [handleInput] before the assignment that clears the pending line,
    which is kept. *)
Theorem enter_submits_trimmed_line (data : jsstring) (v : TerminalView) :
  charCodeAt0 data = Some 13%N ->
  CRLF = [13; 10]%N /\
  (trim (currentLine v) = [] ->
     forall submit,
       handleInputWith submit data v =
       (Ok tt, {| currentLine := []; cwd := cwd v |},
        Write CRLF :: rearm (cwd v))) /\
  (trim (currentLine v) <> [] ->
     exists r v' out,
       executeCommand env (trim (currentLine v)) v = (r, v', out) /\
       effects (handleInput env data v) = Write CRLF :: out /\
       (r = Ok tt /\
        handleInput env data v =
        (Ok tt, {| currentLine := []; cwd := cwd v' |}, Write CRLF :: out)
        \/
        exists message,
          r = Throw message /\
          external (trim (currentLine v)) /\
          child_process_exec env (trim (currentLine v)) (cwd v)
            = Throw message /\
          handleInput env data v =
          (Throw message, v,
           [Write CRLF;
            Exec {| exec_command := trim (currentLine v);
                    exec_cwd := cwd v;
                    exec_env := process_env env |}]))).
Proof.
  intros Hcode. split; [reflexivity|]. split.
  - intros Hblank submit. unfold handleInputWith. rewrite Hcode.
    unfold_method. simpl. rewrite Hblank. reflexivity.
  - intros NE.
    destruct (executeCommand_outcome env (trim (currentLine v)) v)
      as (r & v' & out & E & _ & [-> | (m & -> & X & C & -> & ->)]).
    + exists (Ok tt), v', out. split; [exact E|].
      rewrite (handleInput_enter_dispatch env data v v' out Hcode NE E).
      split; [reflexivity|]. left. split; reflexivity.
    + eexists _, _, _. split; [exact E|].
      rewrite (handleInput_enter_raise env data m v v _ Hcode NE E).
      split; [reflexivity|]. right. exists m. auto.
Qed.

(** C10.  A command the line editor submits is a trimmed, non-empty
    line; if it begins with [cd ], the target the dispatcher extracts
    (what follows [cd ], trimmed) is not empty, and it is that target
    [changeDirectory] is called with. *)
Theorem submitted_cd_has_target (line : jsstring) :
  trim line <> [] ->
  startsWith (trim line) (lit "cd ") = true ->
  trim (substring 3 (trim line)) <> [] /\
  executeCommand env (trim line) =
  changeDirectory env (trim (substring 3 (trim line))).
Proof.
  intros NE Hcd. split.
  - destruct (trim_last line NE) as (s' & c & E & W).
    pose proof (startsWith_substring _ _ Hcd) as P.
    change (List.length (lit "cd ")) with 3 in P.
    destruct (substring 3 (trim line)) as [|x rest] eqn:R.
    + (* the command would be [cd ] itself, which ends in a blank *)
      rewrite P, app_nil_r in E.
      change (lit "cd ") with ([99; 100]%N ++ [32%N]) in E.
      apply app_inj_tail in E. destruct E as [_ <-]. discriminate W.
    + assert (L : exists r', x :: rest = r' ++ [c]).
      { destruct (@exists_last _ (x :: rest)) as (r' & c' & E');
          [discriminate|].
        exists r'. rewrite E' in P. rewrite P in E.
        rewrite app_assoc in E. apply app_inj_tail in E.
        destruct E as [_ ->]. exact E'. }
      destruct L as [r' ->]. exact (trim_nonempty r' c W).
  - unfold executeCommand. rewrite Hcd. reflexivity.
Qed.

End LineEditor.

(** Enter on a pending line that holds a NUL: [exec] raises, and the
    pending line is still there afterwards. *)
Lemma enter_submits_trimmed_line_witness :
  charCodeAt0 [CR] = Some 13%N /\
  trim (currentLine nul_pending) <> [] /\
  handleInput (posix laptop) [CR] nul_pending =
  (Throw nul_message, nul_pending,
   [Write CRLF;
    Exec {| exec_command := nul_paste; exec_cwd := lit "/home/u";
            exec_env := w_env laptop |}]).
Proof.
  split; [reflexivity|]. split; [discriminate|].
  assert (NE : trim (currentLine nul_pending) <> []) by discriminate.
  destruct (proj2 (proj2 (enter_submits_trimmed_line (posix laptop) [CR]
                            nul_pending eq_refl)) NE)
    as (r & v' & out & E & _ & [[-> _] | (m & _ & _ & C & H)]).
  - discriminate E.
  - inversion C; subst m. exact H.
Defined.

(** The pending line [ cd  notes ] is submitted as [cd  notes] and its
    target is [notes]. *)
Lemma submitted_cd_has_target_witness :
  trim (lit " cd  notes ") <> [] /\
  startsWith (trim (lit " cd  notes ")) (lit "cd ") = true /\
  trim (substring 3 (trim (lit " cd  notes "))) <> [].
Proof.
  split; [discriminate|]. split; [reflexivity|].
  apply (submitted_cd_has_target (posix laptop) (lit " cd  notes "));
    [discriminate | reflexivity].
Defined.

(* ===================================================================== *)
(** ** Path resolution *)
(* ===================================================================== *)

Section PathResolution.

Variable env : Env.

Lemma resolved_unfold (newPath : jsstring) (v : TerminalView) :
  resolved env v newPath =
  match outcome (cdTarget env newPath v) with
  | Ok t => path_resolve env t
  | Throw message => Throw message
  end.
Proof.
  unfold resolved. destruct (cdTarget_pure env newPath v) as [r E].
  unfold_method. rewrite E. destruct r as [t|m]; [|reflexivity].
  simpl. destruct (path_resolve env t); reflexivity.
Qed.

Lemma not_tilde_slash (newPath : jsstring) :
  (forall rest, newPath <> lit "~/" ++ rest) ->
  startsWith newPath (lit "~/") = false.
Proof.
  intros H. destruct (startsWith newPath (lit "~/")) eqn:S; [|reflexivity].
  apply startsWith_true in S. destruct S as [rest E].
  exfalso. exact (H rest E).
Qed.

(** The target handed to [path.resolve], test by test of the
    [if]/[else if] chain. *)
Lemma resolved_cases (newPath : jsstring) (v : TerminalView) :
  (forall h, newPath = lit "~" -> os_homedir env = Ok h ->
     resolved env v newPath = path_resolve env h) /\
  (forall rest h, newPath = lit "~/" ++ rest -> os_homedir env = Ok h ->
     resolved env v newPath = path_resolve env (path_join env h rest)) /\
  (newPath <> lit "~" -> (forall rest, newPath <> lit "~/" ++ rest) ->
   path_isAbsolute env newPath = false ->
     resolved env v newPath =
     path_resolve env (path_join env (cwd v) newPath)) /\
  (newPath <> lit "~" -> (forall rest, newPath <> lit "~/" ++ rest) ->
   path_isAbsolute env newPath = true ->
     resolved env v newPath = path_resolve env newPath).
Proof.
  split; [|split; [|split]].
  - intros h -> Hh. rewrite resolved_unfold. unfold cdTarget. simpl.
    unfold_method. rewrite Hh. reflexivity.
  - intros rest h -> Hh. rewrite resolved_unfold. unfold cdTarget. simpl.
    unfold_method. rewrite Hh. reflexivity.
  - intros H1 H2 Habs. rewrite resolved_unfold. unfold cdTarget.
    apply streq_false in H1. rewrite H1, (not_tilde_slash _ H2), Habs.
    reflexivity.
  - intros H1 H2 Habs. rewrite resolved_unfold. unfold cdTarget.
    apply streq_false in H1. rewrite H1, (not_tilde_slash _ H2), Habs.
    reflexivity.
Qed.

(** C4.  When the resolved target does not exist or is not a
    directory, [cd] leaves the view as it is and writes the line
    [cd: no such file or directory: ] followed by the target as it was
    given, in the red rendering.  When resolution or the directory
    test raises, the error is caught, [cd: ] followed by its message
    is written in the red rendering, and the view is left as it is.
    Every branch returns normally and ends with a prompt re-arm. *)
Theorem cd_failure_keeps_directory (newPath : jsstring) (v : TerminalView) :
  (forall target, resolved env v newPath = Ok target ->
     fs_existsSync env target = false \/
     fs_statSync_isDirectory env target = Ok false ->
     changeDirectory env newPath v =
     (Ok tt, v,
      Writeln (red (lit "cd: no such file or directory: " ++ newPath))
        :: rearm (cwd v))) /\
  (forall message,
     resolved env v newPath = Throw message \/
     (exists target, resolved env v newPath = Ok target /\
                     fs_existsSync env target = true /\
                     fs_statSync_isDirectory env target = Throw message) ->
     changeDirectory env newPath v =
     (Ok tt, v, Writeln (red (lit "cd: " ++ message)) :: rearm (cwd v))) /\
  (exists v' out,
     changeDirectory env newPath v = (Ok tt, v', out ++ rearm (cwd v'))).
Proof.
  split; [|split].
  - intros target R [X | D]; rewrite changeDirectory_cases, R.
    + rewrite X. reflexivity.
    + rewrite D. destruct (fs_existsSync env target); reflexivity.
  - intros message [R | (target & R & X & D)];
      rewrite changeDirectory_cases, R; [reflexivity|].
    rewrite X, D. reflexivity.
  - destruct (changeDirectory_total env newPath v) as (v' & out & E & _).
    eauto.
Qed.

End PathResolution.

(** [cd /definitely/not/a/real/path] on the example machine. *)
Lemma cd_failure_keeps_directory_witness :
  resolved (posix laptop) at_home (lit "/definitely/not/a/real/path") =
    Ok (lit "/definitely/not/a/real/path") /\
  fs_existsSync (posix laptop) (lit "/definitely/not/a/real/path") = false /\
  changeDirectory (posix laptop) (lit "/definitely/not/a/real/path") at_home =
  (Ok tt, at_home,
   Writeln (red (lit "cd: no such file or directory: "
                 ++ lit "/definitely/not/a/real/path"))
     :: rearm (lit "/home/u")).
Proof.
  split; [reflexivity|]. split; [reflexivity|].
  apply (proj1 (cd_failure_keeps_directory (posix laptop)
                  (lit "/definitely/not/a/real/path") at_home)
           (lit "/definitely/not/a/real/path") eq_refl).
  left. reflexivity.
Defined.

(* ===================================================================== *)
(** ** The engine over time *)
(* ===================================================================== *)

Section Engine.

Lemma handleInput_validates (env : Env) (data : jsstring) (v : TerminalView) :
  cwd (view_after (handleInput env data v)) = cwd v \/
  validated env (cwd (view_after (handleInput env data v))).
Proof.
  unfold handleInput, handleInputWith.
  destruct (charCodeAt0 data) as [code|]; [|left; reflexivity].
  destruct (code =? 13)%N.
  { destruct (truthy (trim (currentLine v))) eqn:T.
    - pose proof (executeCommand_validates env (trim (currentLine v)) v) as V.
      unfold_method. simpl in *. rewrite T.
      destruct (executeCommand env (trim (currentLine v)) v)
        as [[[[]|m] v'] out]; exact V.
    - left. unfold_method. simpl. rewrite T. reflexivity. }
  destruct (code =? 127)%N.
  { left. unfold_method. destruct (0 <? List.length (currentLine v))%nat;
      reflexivity. }
  destruct (code =? 3)%N; [left; reflexivity|].
  destruct (32 <=? code)%N; left; reflexivity.
Qed.

(** One event leaves the working directory as it was or assigns a
    directory validated in the environment of that event. *)
Lemma step_validates (env : Env) (ev : Event) (eng : Engine) :
  cwd (view (fst (step env ev eng))) = cwd (view eng) \/
  validated env (cwd (view (fst (step env ev eng)))).
Proof.
  destruct ev as [data | i error stdout stderr]; simpl.
  - pose proof (handleInput_validates env data (view eng)) as V.
    unfold view_after in V.
    destruct (handleInput env data (view eng)) as [[r v'] out]. exact V.
  - destruct (nth_error (inflight eng) i); [|left; reflexivity].
    rewrite execCallback_effects. left. reflexivity.
Qed.

Lemma run_validates (evs : list (Env * Event)) (eng : Engine) :
  cwd (view (fst (run evs eng))) = cwd (view eng) \/
  exists env ev, In (env, ev) evs /\
                 validated env (cwd (view (fst (run evs eng)))).
Proof.
  revert eng. induction evs as [|[env ev] evs IH]; intros eng; simpl.
  - left. reflexivity.
  - pose proof (step_validates env ev eng) as S.
    destruct (step env ev eng) as [eng1 out1]. simpl in S.
    specialize (IH eng1).
    destruct (run evs eng1) as [eng2 out2]. simpl in *.
    destruct IH as [Same | (env' & ev' & I & V)].
    + rewrite Same. destruct S as [S | S]; [left; exact S|].
      right. exists env, ev. split; [left; reflexivity | exact S].
    + right. exists env', ev'. split; [right; exact I | exact V].
Qed.

Lemma env_truthy_nonempty (e : ProcessEnv) (name s : jsstring) :
  env_truthy e name = Some s -> s <> [].
Proof.
  unfold env_truthy. destruct (getenv e name) as [x|]; [|discriminate].
  destruct (truthy x) eqn:T; [|discriminate].
  intros E; inversion E; subst. apply truthy_true. exact T.
Qed.

Lemma constructor_cwd (settings : TerminalPluginSettings) (env : Env)
    (v : TerminalView) :
  constructor settings env = Ok v ->
  (trim (startupDirectory settings) <> [] ->
     cwd v = trim (startupDirectory settings)) /\
  (trim (startupDirectory settings) = [] -> home env = Ok (cwd v)).
Proof.
  unfold constructor. intros C. split.
  - intros NE. assert (S : truthy (startupDirectory settings) = true).
    { apply truthy_true. intros E. apply NE. rewrite E. reflexivity. }
    apply truthy_true in NE. rewrite S, NE in C. simpl in C.
    inversion C. reflexivity.
  - intros E. apply truthy_false in E. rewrite E, andb_false_r in C.
    destruct (home env) as [h|m]; [|discriminate].
    inversion C. reflexivity.
Qed.

(** C2, as the code has it.  [handleInput] has no guard on
    outstanding executions.  For any input and any pending line, blank
    or not, the view and the outputs that result are the same whatever
    is outstanding, and what was outstanding stays so, followed by
    what the input starts.  In particular Enter on a pending line
    whose trimmed text is not empty and not a built-in hands it to
    [exec] at once, and when that call returns the new execution joins
    the outstanding ones. *)
Theorem input_dispatches_while_outstanding (env : Env) (data : jsstring)
    (eng : Engine) :
  (forall outstanding,
     view (fst (step env (Input data)
                  {| view := view eng; inflight := outstanding |})) =
     view (fst (step env (Input data)
                  {| view := view eng; inflight := [] |})) /\
     snd (step env (Input data)
            {| view := view eng; inflight := outstanding |}) =
     snd (step env (Input data)
            {| view := view eng; inflight := [] |}) /\
     inflight (fst (step env (Input data)
                      {| view := view eng; inflight := outstanding |})) =
     outstanding ++
     inflight (fst (step env (Input data)
                      {| view := view eng; inflight := [] |}))) /\
  (charCodeAt0 data = Some 13%N ->
   trim (currentLine (view eng)) <> [] ->
   external (trim (currentLine (view eng))) ->
   child_process_exec env (trim (currentLine (view eng))) (cwd (view eng))
     = Ok tt ->
   step env (Input data) eng =
   ({| view := {| currentLine := []; cwd := cwd (view eng) |};
       inflight := inflight eng ++
                   [{| exec_command := trim (currentLine (view eng));
                       exec_cwd := cwd (view eng);
                       exec_env := process_env env |}] |},
    [Write CRLF;
     Exec {| exec_command := trim (currentLine (view eng));
             exec_cwd := cwd (view eng);
             exec_env := process_env env |}])).
Proof.
  split.
  - intros outstanding. simpl.
    destruct (handleInput env data (view eng)) as [[r v'] out].
    repeat split.
  - intros Hcode NE X A.
    pose proof (executeCommand_exec env _ (view eng) X) as E.
    rewrite A in E. simpl.
    rewrite (handleInput_enter_dispatch env data (view eng) (view eng) _
               Hcode NE E).
    unfold after, accepted. simpl. rewrite A. reflexivity.
Qed.

(** C1, as the code has it.  The working directory of a fresh engine
    is the configured startup directory, trimmed and taken without any
    check, whenever that is not blank; otherwise it is the first
    non-empty of [HOME], [USERPROFILE] and [os.homedir()].  After any
    sequence of events the working directory is either that initial
    value or a [path.resolve] result that existed and was a directory
    in the environment of the event that assigned it.  It is not
    empty, provided [os.homedir()] and [path.resolve] do not answer
    the empty string; and once [cd] has assigned it, it is absolute,
    provided [path.resolve] answers absolute paths. *)
Theorem working_directory_provenance (settings : TerminalPluginSettings)
    (env0 : Env) (eng0 : Engine) (evs : list (Env * Event)) :
  start settings env0 = Ok eng0 ->
  (trim (startupDirectory settings) <> [] ->
     cwd (view eng0) = trim (startupDirectory settings)) /\
  (trim (startupDirectory settings) = [] ->
     home env0 = Ok (cwd (view eng0))) /\
  (cwd (view (fst (run evs eng0))) = cwd (view eng0) \/
   exists env ev p,
     In (env, ev) evs /\
     path_resolve env p = Ok (cwd (view (fst (run evs eng0)))) /\
     fs_existsSync env (cwd (view (fst (run evs eng0)))) = true /\
     fs_statSync_isDirectory env (cwd (view (fst (run evs eng0))))
       = Ok true) /\
  (os_homedir env0 <> Ok [] ->
   (forall env ev p, In (env, ev) evs -> path_resolve env p <> Ok []) ->
   cwd (view (fst (run evs eng0))) <> []) /\
  ((forall env ev p d, In (env, ev) evs -> path_resolve env p = Ok d ->
      path_isAbsolute env d = true) ->
   cwd (view (fst (run evs eng0))) = cwd (view eng0) \/
   exists env ev,
     In (env, ev) evs /\
     path_isAbsolute env (cwd (view (fst (run evs eng0)))) = true).
Proof.
  intros Hstart. unfold start in Hstart.
  destruct (constructor settings env0) as [v0|m] eqn:C; [|discriminate].
  inversion Hstart; subst eng0; clear Hstart. simpl.
  destruct (constructor_cwd settings env0 v0 C) as [Hset Hblank].
  pose proof (run_validates evs {| view := v0; inflight := [] |}) as R.
  simpl in R.
  split; [exact Hset|]. split; [exact Hblank|]. split; [|split].
  - destruct R as [Same | (env & ev & I & p & V)]; [left; exact Same|].
    right. exists env, ev, p. split; [exact I | exact V].
  - intros Hhome Hres.
    destruct R as [Same | (env & ev & I & p & V & _)].
    + rewrite Same.
      destruct (trim (startupDirectory settings)) as [|c s] eqn:T.
      * specialize (Hblank eq_refl). unfold home in Hblank.
        destruct (env_truthy (process_env env0) (lit "HOME")) as [h|] eqn:H1.
        { inversion Hblank; subst. exact (env_truthy_nonempty _ _ _ H1). }
        destruct (env_truthy (process_env env0) (lit "USERPROFILE"))
          as [u|] eqn:H2.
        { inversion Hblank; subst. exact (env_truthy_nonempty _ _ _ H2). }
        intros E. apply Hhome. rewrite Hblank, E. reflexivity.
      * rewrite Hset; discriminate.
    + intros E. apply (Hres env ev p I). rewrite V, E. reflexivity.
  - intros Habs.
    destruct R as [Same | (env & ev & I & p & V & _)]; [left; exact Same|].
    right. exists env, ev. split; [exact I|]. exact (Habs env ev p _ I V).
Qed.

End Engine.

(* ===================================================================== *)
(** ** The POSIX instance *)
(* ===================================================================== *)

Section Posix.

Variable w : World.

(** [path.resolve] never answers the empty string. *)
Lemma posix_resolve_nonempty (p : jsstring) :
  path_resolve (posix w) p <> Ok [].
Proof.
  simpl. unfold posix_resolve.
  destruct (posix_isAbsolute p); [discriminate|].
  destruct (w_process_cwd w) as [c|m]; [|discriminate].
  destruct c as [|x c].
  - destruct (normalizeString _ _); discriminate.
  - destruct (posix_isAbsolute (x :: c)); [discriminate|].
    destruct (normalizeString _ _); discriminate.
Qed.

(** [path.resolve] answers an absolute path whenever [process.cwd()]
    does. *)
Lemma posix_resolve_absolute (p dir : jsstring) :
  (forall c, w_process_cwd w = Ok c -> posix_isAbsolute c = true) ->
  path_resolve (posix w) p = Ok dir ->
  path_isAbsolute (posix w) dir = true.
Proof.
  simpl. unfold posix_resolve. intros Hcwd.
  destruct (posix_isAbsolute p).
  { intros E; inversion E; reflexivity. }
  destruct (w_process_cwd w) as [c|m]; [|discriminate].
  specialize (Hcwd c eq_refl).
  destruct c as [|x c]; [discriminate Hcwd|].
  rewrite Hcwd. intros E; inversion E; reflexivity.
Qed.

End Posix.

(* ===================================================================== *)
(** ** What path.join and path.resolve do to a path *)
(* ===================================================================== *)

Section LexicalNormalization.

Lemma ordinary_tests (s : jsstring) :
  ordinary s = true ->
  streq s [] || streq s (lit ".") = false /\
  streq s (lit "..") = false /\ slashless s = true.
Proof.
  unfold ordinary. rewrite !andb_true_iff, !negb_true_iff. tauto.
Qed.

Lemma segments_aux_app (cur a b : jsstring) :
  segments_aux cur (a ++ SLASH :: b) = segments_aux cur a ++ segments b.
Proof.
  revert cur. induction a as [|c a IH]; intros cur; simpl.
  - reflexivity.
  - destruct (N.eqb c SLASH); rewrite IH; reflexivity.
Qed.

Lemma segments_app (a b : jsstring) :
  segments (a ++ SLASH :: b) = segments a ++ segments b.
Proof. apply segments_aux_app. Qed.

Lemma slashless_cons (c : N) (s : jsstring) :
  slashless (c :: s) = true -> N.eqb c SLASH = false /\ slashless s = true.
Proof.
  unfold slashless. cbn [existsb].
  rewrite negb_orb, andb_true_iff, !negb_true_iff.
  intros [C H]. split; [|exact H]. rewrite N.eqb_sym. exact C.
Qed.

Lemma segments_aux_slashless (cur s : jsstring) :
  slashless s = true -> segments_aux cur s = [rev cur ++ s].
Proof.
  revert cur. induction s as [|c s IH]; intros cur H; simpl.
  - rewrite app_nil_r. reflexivity.
  - apply slashless_cons in H. destruct H as [C H].
    rewrite C, (IH (c :: cur) H). simpl. rewrite <- app_assoc. reflexivity.
Qed.

Lemma segments_join (names : list jsstring) :
  forallb ordinary names = true -> names <> [] ->
  segments (join_segments names) = names.
Proof.
  induction names as [|x names IH]; intros O NE; [contradiction|].
  simpl in O. apply andb_true_iff in O. destruct O as [Ox O].
  destruct (ordinary_tests x Ox) as (_ & _ & Sx).
  destruct names as [|y names].
  - simpl. apply (segments_aux_slashless [] x Sx).
  - change (join_segments (x :: y :: names))
      with (x ++ SLASH :: join_segments (y :: names)).
    rewrite segments_app, IH by (assumption || discriminate).
    unfold segments. rewrite (segments_aux_slashless [] x Sx). reflexivity.
Qed.

Lemma slashless_app (a b : jsstring) :
  slashless (a ++ b) = slashless a && slashless b.
Proof. unfold slashless. rewrite existsb_app, negb_orb. reflexivity. Qed.

Lemma segments_aux_all_slashless (cur p : jsstring) :
  slashless (rev cur) = true ->
  forallb slashless (segments_aux cur p) = true.
Proof.
  revert cur. induction p as [|c p IH]; intros cur H; simpl.
  - rewrite H. reflexivity.
  - destruct (N.eqb c SLASH) eqn:C.
    + simpl. rewrite H. apply IH. reflexivity.
    + apply IH. cbn [rev]. rewrite slashless_app, H.
      unfold slashless. cbn [existsb andb].
      rewrite (N.eqb_sym SLASH c), C. reflexivity.
Qed.

(** The segments of a path hold no ['/']. *)
Lemma segments_slashless (p : jsstring) :
  forallb slashless (segments p) = true.
Proof. apply segments_aux_all_slashless. reflexivity. Qed.

Lemma walk_app (here : list jsstring) (a b : list jsstring) :
  walk here (a ++ b) = walk (walk here a) b.
Proof.
  revert here. induction a as [|x a IH]; intros here; simpl.
  - reflexivity.
  - destruct (streq x [] || streq x (lit ".")); [apply IH|].
    destruct (streq x (lit "..")); apply IH.
Qed.

(** Names alone are walked down one after the other. *)
Lemma walk_names (here names : list jsstring) :
  forallb ordinary names = true -> walk here names = here ++ names.
Proof.
  revert here. induction names as [|x names IH]; intros here O; simpl.
  - rewrite app_nil_r. reflexivity.
  - simpl in O. apply andb_true_iff in O. destruct O as [Ox O].
    destruct (ordinary_tests x Ox) as (T1 & T2 & _).
    rewrite T1, T2, (IH _ O), <- app_assoc. reflexivity.
Qed.

Lemma forallb_removelast (f : jsstring -> bool) (l : list jsstring) :
  forallb f l = true -> forallb f (removelast l) = true.
Proof.
  induction l as [|x l IH]; simpl; [reflexivity|].
  rewrite andb_true_iff. intros [Hx Hl].
  destruct l as [|y l]; [reflexivity|].
  simpl. simpl in IH, Hl. rewrite Hx, (IH Hl). reflexivity.
Qed.

(** Walking leaves names only: no ['.'], no ['..'], no empty segment. *)
Lemma walk_ordinary (here segs : list jsstring) :
  forallb ordinary here = true -> forallb slashless segs = true ->
  forallb ordinary (walk here segs) = true.
Proof.
  revert here. induction segs as [|x segs IH]; intros here O S; simpl.
  - exact O.
  - simpl in S. apply andb_true_iff in S. destruct S as [Sx S].
    destruct (streq x [] || streq x (lit ".")) eqn:T1; [apply IH; assumption|].
    destruct (streq x (lit "..")) eqn:T2.
    + apply IH; [apply forallb_removelast|]; assumption.
    + apply IH; [|assumption].
      rewrite forallb_app, O. simpl. unfold ordinary.
      rewrite T1, T2, Sx. reflexivity.
Qed.

(** The stack [normalizeString] keeps is the walk, last name first. *)
Lemma fold_walk (here segs : list jsstring) :
  forallb ordinary here = true -> forallb slashless segs = true ->
  fold_left (push_segment false) segs (rev here) = rev (walk here segs).
Proof.
  revert here. induction segs as [|x segs IH]; intros here O S; simpl.
  - reflexivity.
  - simpl in S. apply andb_true_iff in S. destruct S as [Sx S].
    unfold push_segment at 2.
    destruct (streq x [] || streq x (lit ".")) eqn:T1; [apply IH; assumption|].
    destruct (streq x (lit "..")) eqn:T2.
    + destruct (rev here) as [|top below] eqn:R.
      * assert (here = []) as -> by (apply (f_equal (@rev _)) in R;
          rewrite rev_involutive in R; exact R).
        apply (IH [] eq_refl S).
      * assert (H : here = rev below ++ [top]).
        { apply (f_equal (@rev _)) in R. rewrite rev_involutive in R.
          exact R. }
        subst here. rewrite forallb_app in O.
        apply andb_true_iff in O. destruct O as [Ob Ot].
        simpl in Ot. rewrite andb_true_r in Ot.
        destruct (ordinary_tests top Ot) as (_ & T & _). rewrite T.
        rewrite removelast_last.
        rewrite <- (rev_involutive below) at 1. apply IH; assumption.
    + change (x :: rev here) with (rev [x] ++ rev here).
      rewrite <- rev_app_distr. apply IH; [|assumption].
      rewrite forallb_app, O. simpl. unfold ordinary.
      rewrite T1, T2, Sx. reflexivity.
Qed.

Lemma walk_segments_join (names : list jsstring) :
  forallb ordinary names = true ->
  walk [] (segments (join_segments names)) = names.
Proof.
  intros O. destruct names as [|x names]; [reflexivity|].
  rewrite segments_join by (assumption || discriminate).
  apply (walk_names [] _ O).
Qed.

(** [normalizeString] of an absolute path is the walk from the root. *)
Lemma normalizeString_absolute (q : jsstring) :
  normalizeString (SLASH :: q) false =
  join_segments (walk [] (segments q)).
Proof.
  unfold normalizeString.
  change (segments (SLASH :: q)) with ([] :: segments q).
  change (fold_left (push_segment false) ([] :: segments q) [])
    with (fold_left (push_segment false) (segments q) (rev [])).
  rewrite (fold_walk [] (segments q) eq_refl (segments_slashless q)).
  rewrite rev_involutive. reflexivity.
Qed.

Lemma normalizeString_under (names : list jsstring) (t : jsstring) :
  forallb ordinary names = true ->
  normalizeString (absolute_path names ++ SLASH :: t) false =
  join_segments (walk names (segments t)).
Proof.
  intros O. unfold absolute_path.
  change ((SLASH :: join_segments names) ++ SLASH :: t)
    with (SLASH :: (join_segments names ++ SLASH :: t)).
  rewrite normalizeString_absolute, segments_app, walk_app.
  rewrite (walk_segments_join names O). reflexivity.
Qed.

(** [path.resolve] leaves a normalized absolute path as it is, and
    drops one trailing ['/']; [process.cwd()] is not consulted. *)
Lemma posix_resolve_normal (process_cwd : result jsstring)
    (names : list jsstring) (tail : jsstring) :
  forallb ordinary names = true ->
  tail = [] \/ tail = [SLASH] ->
  posix_resolve process_cwd (absolute_path names ++ tail) =
  Ok (absolute_path names).
Proof.
  intros O T. unfold posix_resolve.
  change (posix_isAbsolute (absolute_path names ++ tail)) with true.
  cbv beta iota zeta.
  change (match absolute_path names ++ tail with
          | [] => []
          | _ :: _ => (absolute_path names ++ tail) ++ [SLASH]
          end) with ((absolute_path names ++ tail) ++ [SLASH]).
  rewrite <- app_assoc. change (negb true) with false.
  destruct T as [-> | ->].
  - change ([] ++ [SLASH]) with (SLASH :: @nil N).
    rewrite (normalizeString_under names [] O). reflexivity.
  - change ([SLASH] ++ [SLASH]) with (SLASH :: [SLASH]).
    rewrite (normalizeString_under names [SLASH] O). reflexivity.
Qed.

(** [path.normalize] of an absolute path is the walk from the root,
    with a trailing ['/'] kept. *)
Lemma posix_normalize_absolute (q : jsstring) :
  exists tail,
    (tail = [] \/ tail = [SLASH]) /\
    posix_normalize (SLASH :: q) =
    absolute_path (walk [] (segments q)) ++ tail.
Proof.
  unfold posix_normalize.
  change (posix_isAbsolute (SLASH :: q)) with true.
  cbv beta iota zeta. change (negb true) with false.
  rewrite normalizeString_absolute. unfold absolute_path.
  destruct (join_segments (walk [] (segments q))) as [|c n] eqn:J.
  - exists []. split; [left; reflexivity | reflexivity].
  - destruct (posix_isAbsolute (rev (SLASH :: q))).
    + exists [SLASH]. split; [right; reflexivity | reflexivity].
    + exists []. split; [left; reflexivity|]. rewrite app_nil_r. reflexivity.
Qed.

(** [path.join] of a normalized absolute path and any string is the
    walk of the string's segments from that path. *)
Lemma posix_join_under (names : list jsstring) (t : jsstring) :
  forallb ordinary names = true ->
  exists tail,
    (tail = [] \/ tail = [SLASH]) /\
    posix_join (absolute_path names) t =
    absolute_path (walk names (segments t)) ++ tail.
Proof.
  intros O. unfold absolute_path at 1.
  destruct t as [|c t].
  - change (posix_join (SLASH :: join_segments names) [])
      with (posix_normalize (SLASH :: join_segments names)).
    destruct (posix_normalize_absolute (join_segments names))
      as (tail & T & E).
    exists tail. split; [exact T|]. rewrite E.
    rewrite (walk_segments_join names O). reflexivity.
  - change (posix_join (SLASH :: join_segments names) (c :: t))
      with (posix_normalize
              (SLASH :: (join_segments names ++ SLASH :: c :: t))).
    destruct (posix_normalize_absolute
                (join_segments names ++ SLASH :: c :: t)) as (tail & T & E).
    exists tail. split; [exact T|]. rewrite E.
    rewrite segments_app, walk_app, (walk_segments_join names O).
    reflexivity.
Qed.

(** [cd] from a normalized absolute path: joined and resolved, the
    target is walked from there. *)
Lemma posix_join_resolve (process_cwd : result jsstring)
    (names : list jsstring) (t : jsstring) :
  forallb ordinary names = true ->
  posix_resolve process_cwd (posix_join (absolute_path names) t) =
  Ok (absolute_path (walk names (segments t))).
Proof.
  intros O. destruct (posix_join_under names t O) as (tail & T & ->).
  apply posix_resolve_normal; [|exact T].
  apply walk_ordinary; [exact O | apply segments_slashless].
Qed.

(** [path.resolve] of an absolute path is the walk from the root. *)
Lemma posix_resolve_absolute_target (process_cwd : result jsstring)
    (p : jsstring) :
  posix_isAbsolute p = true ->
  posix_resolve process_cwd p = Ok (absolute_path (walk [] (segments p))).
Proof.
  intros A. destruct p as [|c q]; [discriminate A|].
  simpl in A. apply N.eqb_eq in A. subst c.
  unfold posix_resolve.
  change (posix_isAbsolute (SLASH :: q)) with true. cbv beta iota zeta.
  change ((SLASH :: q) ++ [SLASH]) with (SLASH :: (q ++ SLASH :: [])).
  rewrite normalizeString_absolute, segments_app, walk_app. reflexivity.
Qed.

(** C5.  The path [cd] checks is [path.resolve] of: the home
    directory for the target [~]; the home directory joined with the
    remainder for a target that begins with [~/]; the working
    directory joined with the target for any other target that is not
    absolute; the target itself when it is absolute.  The
    existence-and-directory test is made on that resolved path, which
    becomes the working directory when the test passes.  With Node's
    POSIX [path], joining and resolving is lexical normalization: from
    a home or working directory that is a normalized absolute path,
    the resolved path is the one reached by walking the segments of the
    target, an empty segment and [.] staying, [..] going to the parent
    and a name going down; for an absolute target the walk starts at
    the root.  The result holds names only.  This is so on every
    machine, whatever directories, files or links exist and whatever
    [process.cwd()] answers: the file system is not consulted before
    the test. *)
Theorem cd_target_resolution (env : Env) (w : World) (newPath : jsstring)
    (v : TerminalView) :
  (forall h, newPath = lit "~" -> os_homedir env = Ok h ->
     resolved env v newPath = path_resolve env h) /\
  (forall rest h, newPath = lit "~/" ++ rest -> os_homedir env = Ok h ->
     resolved env v newPath = path_resolve env (path_join env h rest)) /\
  (newPath <> lit "~" -> (forall rest, newPath <> lit "~/" ++ rest) ->
   path_isAbsolute env newPath = false ->
     resolved env v newPath =
     path_resolve env (path_join env (cwd v) newPath)) /\
  (newPath <> lit "~" -> (forall rest, newPath <> lit "~/" ++ rest) ->
   path_isAbsolute env newPath = true ->
     resolved env v newPath = path_resolve env newPath) /\
  (forall target, resolved env v newPath = Ok target ->
     fs_existsSync env target = true ->
     fs_statSync_isDirectory env target = Ok true ->
     changeDirectory env newPath v =
     (Ok tt, {| currentLine := currentLine v; cwd := target |},
      rearm target)) /\
  (forall names, newPath = lit "~" ->
     w_homedir w = Ok (absolute_path names) ->
     forallb ordinary names = true ->
     resolved (posix w) v newPath = Ok (absolute_path names)) /\
  (forall names rest, newPath = lit "~/" ++ rest ->
     w_homedir w = Ok (absolute_path names) ->
     forallb ordinary names = true ->
     resolved (posix w) v newPath =
     Ok (absolute_path (walk names (segments rest)))) /\
  (forall names,
     newPath <> lit "~" -> (forall rest, newPath <> lit "~/" ++ rest) ->
     posix_isAbsolute newPath = false ->
     cwd v = absolute_path names ->
     forallb ordinary names = true ->
     resolved (posix w) v newPath =
     Ok (absolute_path (walk names (segments newPath)))) /\
  (posix_isAbsolute newPath = true ->
   resolved (posix w) v newPath =
   Ok (absolute_path (walk [] (segments newPath)))) /\
  (forall names, forallb ordinary names = true ->
     forallb ordinary (walk names (segments newPath)) = true).
Proof.
  destruct (resolved_cases env newPath v) as (E1 & E2 & E3 & E4).
  destruct (resolved_cases (posix w) newPath v) as (P1 & P2 & P3 & P4).
  split; [exact E1|]. split; [exact E2|]. split; [exact E3|].
  split; [exact E4|].
  split; [|split; [|split; [|split; [|split]]]].
  - intros target R X D. rewrite changeDirectory_cases, R, X, D.
    reflexivity.
  - intros names Hn Hh O. rewrite (P1 _ Hn Hh). simpl.
    rewrite <- (app_nil_r (absolute_path names)) at 1.
    apply posix_resolve_normal; [exact O | left; reflexivity].
  - intros names rest Hn Hh O. rewrite (P2 _ _ Hn Hh). simpl.
    apply posix_join_resolve. exact O.
  - intros names N1 N2 A Hc O. rewrite (P3 N1 N2 A). simpl. rewrite Hc.
    apply posix_join_resolve. exact O.
  - intros A. rewrite P4.
    + simpl. apply posix_resolve_absolute_target. exact A.
    + intros ->. discriminate A.
    + intros rest ->. discriminate A.
    + exact A.
  - intros names O. apply walk_ordinary; [exact O | apply segments_slashless].
Qed.

End LexicalNormalization.

(** [cd ~/notes/./../notes] on the example machine, from anywhere. *)
Lemma cd_target_resolution_witness :
  w_homedir laptop = Ok (absolute_path [lit "home"; lit "u"]) /\
  forallb ordinary [lit "home"; lit "u"] = true /\
  resolved (posix laptop) {| currentLine := []; cwd := lit "/tmp" |}
    (lit "~/notes/./../notes") = Ok (lit "/home/u/notes").
Proof.
  split; [reflexivity|]. split; [reflexivity|].
  exact (proj1 (proj2 (proj2 (proj2 (proj2 (proj2 (proj2
           (cd_target_resolution (posix laptop) laptop
              (lit "~/notes/./../notes")
              {| currentLine := []; cwd := lit "/tmp" |})))))))
           [lit "home"; lit "u"] (lit "notes/./../notes")
           eq_refl eq_refl eq_refl).
Defined.

(* ===================================================================== *)
(** ** The engine on the example machine *)
(* ===================================================================== *)

(** With [ls] outstanding and [ps] pending, Enter starts [ps] too. *)
Lemma input_dispatches_while_outstanding_witness :
  charCodeAt0 [CR] = Some 13%N /\
  trim (lit "ps") <> [] /\
  external (trim (lit "ps")) /\
  child_process_exec (posix laptop) (trim (lit "ps")) (lit "/home/u")
    = Ok tt /\
  step (posix laptop) (Input [CR])
    {| view := {| currentLine := lit "ps"; cwd := lit "/home/u" |};
       inflight := [from_home (lit "ls")] |} =
  ({| view := at_home;
      inflight := [from_home (lit "ls"); from_home (lit "ps")] |},
   [Write CRLF; Exec (from_home (lit "ps"))]).
Proof.
  assert (X : external (trim (lit "ps"))).
  { unfold external.
    repeat split; try discriminate; intros rest E; discriminate E. }
  split; [reflexivity|]. split; [discriminate|]. split; [exact X|].
  split; [reflexivity|].
  apply (proj2 (input_dispatches_while_outstanding (posix laptop) [CR]
           {| view := {| currentLine := lit "ps"; cwd := lit "/home/u" |};
              inflight := [from_home (lit "ls")] |}));
    [reflexivity | discriminate | exact X | reflexivity].
Defined.

(** C2 fails on the code: typing [ls], Enter, [ps], Enter leaves [ls]
    outstanding at the second Enter, and that Enter starts [ps]. *)
Lemma second_dispatch_started :
  start {| startupDirectory := [] |} (posix laptop) = Ok fresh /\
  inflight (fst (run ls_then_ps fresh)) = [from_home (lit "ls")] /\
  step (posix laptop) (Input [CR]) (fst (run ls_then_ps fresh)) =
  ({| view := at_home;
      inflight := [from_home (lit "ls"); from_home (lit "ps")] |},
   [Write CRLF; Exec (from_home (lit "ps"))]) /\
  ~ no_second_dispatch.
Proof.
  split; [reflexivity|]. split; [reflexivity|]. split; [reflexivity|].
  intros H.
  assert (N : started (snd (step (posix laptop) (Input [CR])
                              (fst (run ls_then_ps fresh)))) = []).
  { apply (H {| startupDirectory := [] |} (posix laptop) fresh ls_then_ps
             (posix laptop) [CR]); [reflexivity | discriminate]. }
  discriminate N.
Qed.

Lemma cd_notes_on_laptop (env : Env) (ev : Event) :
  In (env, ev) cd_notes -> env = posix laptop.
Proof.
  unfold cd_notes, keys, enter. simpl. intros I.
  repeat (destruct I as [I | I]; [inversion I; reflexivity|]).
  destruct I.
Qed.

(** A fresh engine with no configured startup directory, then
    [cd notes] and Enter. *)
Lemma working_directory_provenance_witness :
  start {| startupDirectory := [] |} (posix laptop) = Ok fresh /\
  cwd (view (fst (run cd_notes fresh))) = lit "/home/u/notes" /\
  (cwd (view (fst (run cd_notes fresh))) = cwd (view fresh) \/
   exists env ev p,
     In (env, ev) cd_notes /\
     path_resolve env p = Ok (cwd (view (fst (run cd_notes fresh)))) /\
     fs_existsSync env (cwd (view (fst (run cd_notes fresh)))) = true /\
     fs_statSync_isDirectory env (cwd (view (fst (run cd_notes fresh))))
       = Ok true) /\
  os_homedir (posix laptop) <> Ok [] /\
  cwd (view (fst (run cd_notes fresh))) <> [] /\
  (cwd (view (fst (run cd_notes fresh))) = cwd (view fresh) \/
   exists env ev,
     In (env, ev) cd_notes /\
     path_isAbsolute env (cwd (view (fst (run cd_notes fresh)))) = true).
Proof.
  split; [reflexivity|]. split; [reflexivity|].
  destruct (working_directory_provenance {| startupDirectory := [] |}
              (posix laptop) fresh cd_notes eq_refl)
    as (_ & _ & P & NE & A).
  split; [exact P|]. split; [discriminate|]. split.
  - apply NE; [discriminate|].
    intros env ev p I. rewrite (cd_notes_on_laptop env ev I).
    apply posix_resolve_nonempty.
  - apply A. intros env ev p d I. rewrite (cd_notes_on_laptop env ev I).
    apply posix_resolve_absolute.
    intros c E. inversion E. reflexivity.
Defined.

(** C1 fails on the code: a configured startup directory that is
    relative and does not exist becomes the working directory, trimmed
    and unchecked; there is no fall back to the home directory. *)
Lemma startup_directory_not_validated :
  constructor {| startupDirectory := lit " nowhere " |} (posix laptop) =
    Ok {| currentLine := []; cwd := lit "nowhere" |} /\
  path_isAbsolute (posix laptop) (lit "nowhere") = false /\
  fs_existsSync (posix laptop) (lit "nowhere") = false /\
  home (posix laptop) = Ok (lit "/home/u") /\
  ~ validated_at_construction.
Proof.
  split; [reflexivity|]. split; [reflexivity|]. split; [reflexivity|].
  split; [reflexivity|].
  intros H.
  destruct (H {| startupDirectory := lit " nowhere " |} (posix laptop)
              {| currentLine := []; cwd := lit "nowhere" |} eq_refl)
    as [A _].
  discriminate A.
Qed.

(** The unchecked startup directory stays the working directory: [pwd]
    prints it. *)
Example invalid_startup_directory_persists :
  written (snd (run (keys laptop (lit "pwd") ++ [enter laptop])
                  {| view := {| currentLine := []; cwd := lit "nowhere" |};
                     inflight := [] |})) =
  lit "pwd" ++ CRLF ++ lit "nowhere" ++ CRLF ++ CRLF
    ++ promptFrame (lit "nowhere").
Proof. reflexivity. Qed.

(** [path.resolve] collapses [.] and [..] lexically. *)
Example cd_normalizes_lexically :
  changeDirectory (posix laptop) (lit "notes/./../notes/") at_home =
  (Ok tt, {| currentLine := []; cwd := lit "/home/u/notes" |},
   rearm (lit "/home/u/notes")).
Proof. reflexivity. Qed.

(** A regular file is not a directory. *)
Example cd_to_a_file :
  changeDirectory (posix laptop) (lit "todo.md") at_home =
  (Ok tt, at_home,
   Writeln (red (lit "cd: no such file or directory: todo.md"))
     :: rearm (lit "/home/u")).
Proof. reflexivity. Qed.

(** [process.cwd()] raises while a relative working directory is being
    resolved: the error is caught and reported. *)
Example cd_reports_a_raised_error :
  changeDirectory (posix laptop_cwd_gone) (lit "x")
    {| currentLine := []; cwd := lit "proj" |} =
  (Ok tt, {| currentLine := []; cwd := lit "proj" |},
   Writeln (red (lit "cd: ENOENT: no such file or directory, uv_cwd"))
     :: rearm (lit "proj")).
Proof. reflexivity. Qed.

(** A command that writes to stdout and fails with empty stderr: stdout,
    then the message once, then the prompt. *)
Example failed_command_shows_message_once :
  execCallback (Some (lit "Command failed: false")) (lit "partial") []
    at_home =
  (Ok tt, at_home,
   [Write (lit "partial"); Writeln (red (lit "Command failed: false"))]
     ++ rearm (lit "/home/u")).
Proof. reflexivity. Qed.

(** Two Enters on an empty line: one prompt each, nothing started. *)
Example two_enters_two_prompts :
  run [enter laptop; enter laptop] fresh =
  (fresh,
   (Write CRLF :: rearm (lit "/home/u"))
     ++ (Write CRLF :: rearm (lit "/home/u"))).
Proof. reflexivity. Qed.

(* ===================================================================== *)
(** ** Keystrokes other than Enter *)
(* ===================================================================== *)

Section Keystrokes.

Variable submit : jsstring -> M unit.

Lemma view_eta (v : TerminalView) :
  {| currentLine := currentLine v; cwd := cwd v |} = v.
Proof. destruct v; reflexivity. Qed.

Lemma printable_code (data : jsstring) :
  printable data = true ->
  exists code, charCodeAt0 data = Some code /\
               (code =? 13)%N = false /\ (code =? 127)%N = false /\
               (code =? 3)%N = false /\ (32 <=? code)%N = true.
Proof.
  unfold printable. destruct (charCodeAt0 data) as [code|]; [|discriminate].
  rewrite andb_true_iff, negb_true_iff. intros [G D].
  exists code. apply N.leb_le in G.
  repeat split; try assumption; try (apply N.leb_le; assumption);
    apply N.eqb_neq; lia.
Qed.

Lemma handleInputWith_printable (data : jsstring) (v : TerminalView) :
  printable data = true ->
  handleInputWith submit data v =
  (Ok tt, {| currentLine := currentLine v ++ data; cwd := cwd v |},
   [Write data]).
Proof.
  intros P. destruct (printable_code data P) as (code & C & E1 & E2 & E3 & G).
  unfold handleInputWith. rewrite C, E1, E2, E3, G. reflexivity.
Qed.

Lemma handleInputWith_backspace (data : jsstring) (v : TerminalView) :
  charCodeAt0 data = Some DEL ->
  handleInputWith submit data v =
  match currentLine v with
  | [] => (Ok tt, v, [])
  | _ :: _ =>
      (Ok tt, {| currentLine := removelast (currentLine v); cwd := cwd v |},
       [erase])
  end.
Proof.
  intros C. unfold handleInputWith. rewrite C. simpl. unfold_method.
  destruct v as [line dir]. destruct line; reflexivity.
Qed.

Lemma handleInputWith_interrupt (data : jsstring) (v : TerminalView) :
  charCodeAt0 data = Some ETX ->
  handleInputWith submit data v =
  (Ok tt, {| currentLine := []; cwd := cwd v |},
   Write (lit "^C" ++ CRLF) :: rearm (cwd v)).
Proof. intros C. unfold handleInputWith. rewrite C. reflexivity. Qed.

Lemma handleInputWith_ignored (data : jsstring) (v : TerminalView) :
  ignored data = true ->
  handleInputWith submit data v = (Ok tt, v, []).
Proof.
  unfold ignored, handleInputWith.
  destruct (charCodeAt0 data) as [code|]; [|reflexivity].
  rewrite !andb_true_iff, !negb_true_iff. intros [[L E1] E3].
  rewrite E1, E3. apply N.ltb_lt in L.
  replace (code =? 127)%N with false by (symmetry; apply N.eqb_neq; lia).
  replace (32 <=? code)%N with false by (symmetry; apply N.leb_gt; lia).
  reflexivity.
Qed.

Lemma handleInputWith_enter_blank (data : jsstring) (v : TerminalView) :
  charCodeAt0 data = Some 13%N ->
  trim (currentLine v) = [] ->
  handleInputWith submit data v =
  (Ok tt, {| currentLine := []; cwd := cwd v |},
   Write CRLF :: rearm (cwd v)).
Proof.
  intros C B. unfold handleInputWith. rewrite C. unfold_method. simpl.
  rewrite B. reflexivity.
Qed.

(** Every input is Enter, Backspace, Ctrl+C, printable or ignored. *)
Lemma input_cases (data : jsstring) :
  charCodeAt0 data = Some 13%N \/ charCodeAt0 data = Some DEL \/
  charCodeAt0 data = Some ETX \/ printable data = true \/
  ignored data = true.
Proof.
  unfold printable, ignored, DEL, ETX.
  destruct (charCodeAt0 data) as [code|]; [|auto].
  destruct (N.eq_dec code 13) as [->|N13]; [auto|].
  destruct (N.eq_dec code 127) as [->|N127]; [auto|].
  destruct (N.eq_dec code 3) as [->|N3]; [auto|].
  apply N.eqb_neq in N13, N127, N3. rewrite N13, N127, N3.
  destruct (32 <=? code)%N eqn:G.
  - right. right. right. left. reflexivity.
  - right. right. right. right. apply N.leb_gt in G.
    apply N.ltb_lt in G. rewrite G. reflexivity.
Qed.

End Keystrokes.

Section Typing.

Lemma step_input (env : Env) (data : jsstring) (eng : Engine)
    (v' : TerminalView) (out : list Effect) :
  handleInput env data (view eng) = (Ok tt, v', out) ->
  started out = [] ->
  step env (Input data) eng = ({| view := v'; inflight := inflight eng |}, out).
Proof.
  intros H S. simpl. rewrite H. simpl. rewrite S, app_nil_r. reflexivity.
Qed.

(** Printable chunks pile up in the pending line and are echoed. *)
Lemma run_printable (l : list (Env * jsstring)) (eng : Engine) :
  Forall (fun p => printable (snd p) = true) l ->
  run (inputs l) eng =
  ({| view := {| currentLine := currentLine (view eng)
                                ++ List.concat (map snd l);
                 cwd := cwd (view eng) |};
      inflight := inflight eng |},
   map Write (map snd l)).
Proof.
  intros F. revert eng. induction F as [|[env data] l P F IH]; intros eng.
  - simpl. rewrite app_nil_r, view_eta. destruct eng; reflexivity.
  - simpl in P. cbn [inputs map fst snd run List.concat].
    rewrite (step_input env data eng _ _
               (handleInputWith_printable _ data (view eng) P) eq_refl).
    fold (inputs l). rewrite IH. simpl. rewrite app_assoc. reflexivity.
Qed.

(** Backspaces cut the pending line from its end, one code unit each,
    and stop at the empty line. *)
Lemma run_backspaces (l : list (Env * jsstring)) (eng : Engine) :
  Forall (fun p => charCodeAt0 (snd p) = Some DEL) l ->
  run (inputs l) eng =
  ({| view := {| currentLine :=
                   firstn (List.length (currentLine (view eng))
                           - List.length l) (currentLine (view eng));
                 cwd := cwd (view eng) |};
      inflight := inflight eng |},
   repeat erase (Nat.min (List.length l)
                         (List.length (currentLine (view eng))))).
Proof.
  intros F. revert eng. induction F as [|[env data] l P F IH]; intros eng.
  - simpl. rewrite Nat.sub_0_r, firstn_all, view_eta.
    destruct eng; reflexivity.
  - simpl in P. cbn [inputs map fst snd run].
    pose proof (handleInputWith_backspace (executeCommand env) data
                  (view eng) P) as H.
    fold (handleInput env data (view eng)) in H.
    destruct (currentLine (view eng)) as [|c line] eqn:L.
    + rewrite (step_input env data eng _ _ H eq_refl).
      fold (inputs l). rewrite IH. simpl. rewrite L. simpl.
      rewrite Nat.min_0_r. destruct eng; reflexivity.
    + rewrite (step_input env data eng _ _ H eq_refl).
      fold (inputs l). rewrite IH. cbn [view currentLine cwd inflight].
      rewrite removelast_firstn_len, firstn_firstn, length_firstn.
      cbn [List.length pred].
      rewrite (Nat.min_l (List.length line) (S (List.length line))) by lia.
      replace (Nat.min (List.length line - List.length l) (List.length line))
        with (S (List.length line) - S (List.length l)) by lia.
      replace (Nat.min (S (List.length l)) (S (List.length line)))
        with (S (Nat.min (List.length l) (List.length line))) by lia.
      reflexivity.
Qed.

End Typing.

Section LineEditing.

Lemma written_echo (chunks : list jsstring) :
  written (map Write chunks) = List.concat chunks.
Proof.
  induction chunks as [|d chunks IH]; simpl; [reflexivity|].
  rewrite IH. reflexivity.
Qed.

Lemma run_cons (env : Env) (ev : Event) (evs : list (Env * Event))
    (eng eng1 : Engine) (out1 : list Effect) :
  step env ev eng = (eng1, out1) ->
  run ((env, ev) :: evs) eng =
  (fst (run evs eng1), out1 ++ snd (run evs eng1)).
Proof.
  intros S. simpl. rewrite S. destruct (run evs eng1); reflexivity.
Qed.

(** X1.  Printable input, in chunks of any length (a key, a character
    of two code units, a paste), is appended verbatim to the pending
    line and echoed as it is; the working directory is untouched and
    nothing is dispatched.  Only the first code unit of a chunk is
    looked at, so a carriage return inside a paste is appended like any
    other code unit. *)
Theorem printable_input_accumulates (l : list (Env * jsstring))
    (eng : Engine) :
  Forall (fun p => printable (snd p) = true) l ->
  run (inputs l) eng =
  ({| view := {| currentLine := currentLine (view eng)
                                ++ List.concat (map snd l);
                 cwd := cwd (view eng) |};
      inflight := inflight eng |},
   map Write (map snd l)) /\
  written (snd (run (inputs l) eng)) = List.concat (map snd l).
Proof.
  intros F. rewrite (run_printable l eng F). split; [reflexivity|].
  apply written_echo.
Qed.

(** X2.  Backspaces remove code units from the end of the pending
    line, one each, and write one erase sequence per code unit removed;
    once the line is empty further Backspaces change nothing and write
    nothing. *)
Theorem backspaces_cut_pending_line (l : list (Env * jsstring))
    (eng : Engine) :
  Forall (fun p => charCodeAt0 (snd p) = Some DEL) l ->
  run (inputs l) eng =
  ({| view := {| currentLine :=
                   firstn (List.length (currentLine (view eng))
                           - List.length l) (currentLine (view eng));
                 cwd := cwd (view eng) |};
      inflight := inflight eng |},
   repeat erase (Nat.min (List.length l)
                         (List.length (currentLine (view eng))))) /\
  (List.length (currentLine (view eng)) <= List.length l ->
   currentLine (view (fst (run (inputs l) eng))) = []).
Proof.
  intros F. rewrite (run_backspaces l eng F). split; [reflexivity|].
  intros Hle. simpl.
  replace (List.length (currentLine (view eng)) - List.length l) with 0
    by lia.
  reflexivity.
Qed.

(** X3.  A printable chunk followed by as many Backspaces as it has
    code units leaves the engine as it was before the chunk. *)
Theorem typed_chunk_is_erased (env : Env) (data : jsstring)
    (l : list (Env * jsstring)) (eng : Engine) :
  printable data = true ->
  Forall (fun p => charCodeAt0 (snd p) = Some DEL) l ->
  List.length l = List.length data ->
  run (inputs ((env, data) :: l)) eng =
  (eng, Write data :: repeat erase (List.length data)).
Proof.
  intros P F Hlen.
  change (inputs ((env, data) :: l)) with ((env, Input data) :: inputs l).
  rewrite (run_cons env (Input data) (inputs l) eng _ _
             (step_input env data eng _ _
                (handleInputWith_printable _ data (view eng) P) eq_refl)).
  rewrite (run_backspaces l _ F). cbn [fst snd view currentLine cwd inflight].
  rewrite length_app, Hlen, Nat.add_sub, firstn_app, Nat.sub_diag.
  rewrite firstn_all, firstn_O, app_nil_r, view_eta.
  replace (Nat.min (List.length data)
             (List.length (currentLine (view eng)) + List.length data))
    with (List.length data) by lia.
  destruct eng; reflexivity.
Qed.

(** X4.  Ctrl+C throws the pending line away whatever it holds: it
    writes [^C] and a line break and re-arms the prompt, and an Enter
    that follows submits nothing and only re-arms the prompt again. *)
Theorem interrupt_discards_pending_line (env1 env2 : Env)
    (d1 d2 : jsstring) (eng : Engine) :
  charCodeAt0 d1 = Some ETX ->
  charCodeAt0 d2 = Some 13%N ->
  run (inputs [(env1, d1); (env2, d2)]) eng =
  ({| view := {| currentLine := []; cwd := cwd (view eng) |};
      inflight := inflight eng |},
   (Write (lit "^C" ++ CRLF) :: rearm (cwd (view eng)))
     ++ (Write CRLF :: rearm (cwd (view eng)))).
Proof.
  intros C1 C2.
  change (inputs [(env1, d1); (env2, d2)])
    with [(env1, Input d1); (env2, Input d2)].
  rewrite (run_cons env1 (Input d1) _ eng _ _
             (step_input env1 d1 eng _ _
                (handleInputWith_interrupt _ d1 (view eng) C1) eq_refl)).
  cbn [fst snd].
  rewrite (run_cons env2 (Input d2) [] _ _ _
             (step_input env2 d2
                {| view := {| currentLine := []; cwd := cwd (view eng) |};
                   inflight := inflight eng |} _ _
                (handleInputWith_enter_blank _ d2
                   {| currentLine := []; cwd := cwd (view eng) |}
                   C2 eq_refl) eq_refl)).
  reflexivity.
Qed.

(** X5.  Only Enter dispatches.  Input whose first code unit is not 13
    never reaches the dispatcher, leaves the working directory as it
    is, starts no execution and returns normally. *)
Theorem only_enter_dispatches (env : Env) (data : jsstring)
    (v : TerminalView) :
  charCodeAt0 data <> Some 13%N ->
  (forall submit, handleInputWith submit data v = handleInput env data v) /\
  outcome (handleInput env data v) = Ok tt /\
  cwd (view_after (handleInput env data v)) = cwd v /\
  started (effects (handleInput env data v)) = [].
Proof.
  intros NE. unfold handleInput.
  destruct (input_cases data) as [C | [C | [C | [P | I]]]].
  - contradiction.
  - split.
    + intros submit. rewrite !handleInputWith_backspace by exact C.
      reflexivity.
    + rewrite handleInputWith_backspace by exact C.
      destruct (currentLine v); repeat split.
  - split.
    + intros submit. rewrite !handleInputWith_interrupt by exact C.
      reflexivity.
    + rewrite handleInputWith_interrupt by exact C. repeat split.
  - split.
    + intros submit. rewrite !handleInputWith_printable by exact P.
      reflexivity.
    + rewrite handleInputWith_printable by exact P. repeat split.
  - split.
    + intros submit. rewrite !handleInputWith_ignored by exact I.
      reflexivity.
    + rewrite handleInputWith_ignored by exact I. repeat split.
Qed.

(** X6.  Empty input, and input whose first code unit is a control
    code other than Enter and Ctrl+C (Tab, or the escape sequence of an
    arrow key), is dropped whole: the engine and the display stay as
    they are. *)
Theorem control_input_is_ignored (env : Env) (data : jsstring)
    (eng : Engine) :
  ignored data = true ->
  step env (Input data) eng = (eng, []).
Proof.
  intros I.
  rewrite (step_input env data eng _ _
             (handleInputWith_ignored _ data (view eng) I) eq_refl).
  destruct eng; reflexivity.
Qed.

End LineEditing.



(* ===================================================================== *)
(** ** What dispatch starts and where *)
(* ===================================================================== *)

Section Executions.

Variable env : Env.


Lemma execCallback_starts_nothing (error : option jsstring)
    (stdout stderr : jsstring) (v : TerminalView) :
  started (effects (execCallback error stdout stderr v)) = [].
Proof.
  rewrite execCallback_effects.
  destruct stdout, stderr, error; reflexivity.
Qed.


(** X7.  [handleInput] raises only when Enter submits an external
    command and [exec] raises: what is raised is what [exec] raised,
    and the view, pending line included, is left as it was.  Whatever
    [os.homedir()], [path.resolve] and [fs.statSync] raise is caught
    inside [changeDirectory].  When [handleInput] returns, the pending
    line is empty after Enter and after Ctrl+C.  Either way the working
    directory is the one before or a directory validated in this
    environment. *)
Theorem handleInput_raises_only_from_exec (data : jsstring)
    (v : TerminalView) :
  exists r v' out,
    handleInput env data v = (r, v', out) /\
    (cwd v' = cwd v \/ validated env (cwd v')) /\
    (r = Ok tt /\
     (charCodeAt0 data = Some 13%N \/ charCodeAt0 data = Some ETX ->
      currentLine v' = [])
     \/
     exists message,
       r = Throw message /\
       charCodeAt0 data = Some 13%N /\
       trim (currentLine v) <> [] /\
       external (trim (currentLine v)) /\
       child_process_exec env (trim (currentLine v)) (cwd v)
         = Throw message /\
       v' = v).
Proof.
  pose proof (handleInput_validates env data v) as V. unfold view_after in V.
  destruct (input_cases data) as [C | [C | [C | [P | I]]]].
  - destruct (trim (currentLine v)) as [|c s] eqn:T.
    + unfold handleInput in *.
      rewrite (handleInputWith_enter_blank _ data v C T) in *.
      eexists _, _, _. split; [reflexivity|]. split; [exact V|].
      left. split; reflexivity.
    + assert (NE : trim (currentLine v) <> []) by (rewrite T; discriminate).
      destruct (executeCommand_outcome env (trim (currentLine v)) v)
        as (r & v' & out & E & _ & [-> | (m & -> & X & A & -> & ->)]).
      * rewrite (handleInput_enter_dispatch env data v v' out C NE E) in *.
        eexists _, _, _. split; [reflexivity|]. split; [exact V|].
        left. split; reflexivity.
      * rewrite (handleInput_enter_raise env data m v v _ C NE E) in *.
        eexists _, _, _. split; [reflexivity|]. split; [exact V|].
        right. exists m. rewrite <- T. auto 8.
  - unfold handleInput in *. rewrite handleInputWith_backspace in * by exact C.
    unfold DEL, ETX in *.
    destruct (currentLine v); eexists _, _, _;
      (split; [reflexivity|]); (split; [exact V|]);
      left; (split; [reflexivity|]); intros [H | H]; congruence.
  - unfold handleInput in *. rewrite handleInputWith_interrupt in * by exact C.
    eexists _, _, _. split; [reflexivity|]. split; [exact V|].
    left. split; reflexivity.
  - unfold handleInput in *. rewrite handleInputWith_printable in * by exact P.
    eexists _, _, _. split; [reflexivity|]. split; [exact V|].
    left. split; [reflexivity|].
    destruct (printable_code data P) as (code & C & E1 & _ & E3 & _).
    apply N.eqb_neq in E1, E3. unfold ETX.
    intros [H | H]; congruence.
  - unfold handleInput in *. rewrite handleInputWith_ignored in * by exact I.
    eexists _, _, _. split; [reflexivity|]. split; [exact V|].
    left. split; [reflexivity|].
    unfold ignored, ETX in *. intros [H | H]; rewrite H in I; discriminate I.
Qed.


End Executions.

(* ===================================================================== *)
(** ** The working directory across commands *)
(* ===================================================================== *)

Section AcrossCommands.

Lemma trim_cd_line (arg : jsstring) :
  trim arg = arg -> arg <> [] ->
  trim (lit "cd " ++ arg) = lit "cd " ++ arg.
Proof.
  intros T NE. rewrite <- T in NE.
  destruct (trim_last arg NE) as (s' & c & E & W).
  rewrite T in E. subst arg. unfold trim.
  change (trimStart (lit "cd " ++ s' ++ [c])) with (lit "cd " ++ s' ++ [c]).
  rewrite app_assoc. apply trimEnd_keeps. exact W.
Qed.

Lemma changeDirectory_enters (env : Env) (newPath target : jsstring)
    (v : TerminalView) :
  resolved env v newPath = Ok target ->
  fs_existsSync env target = true ->
  fs_statSync_isDirectory env target = Ok true ->
  changeDirectory env newPath v =
  (Ok tt, {| currentLine := currentLine v; cwd := target |}, rearm target).
Proof.
  intros R X D. rewrite changeDirectory_cases, R, X, D. reflexivity.
Qed.

(** X9.  After a [cd] that succeeds, the commands that follow see the
    new directory, in whatever environment they run: [pwd] prints it
    and an external command is executed in it. *)
Theorem cd_then_commands_use_new_directory (env env' : Env)
    (newPath target command : jsstring) (v : TerminalView) :
  resolved env v newPath = Ok target ->
  fs_existsSync env target = true ->
  fs_statSync_isDirectory env target = Ok true ->
  external command ->
  view_after (changeDirectory env newPath v) =
    {| currentLine := currentLine v; cwd := target |} /\
  effects (executeCommand env' (lit "pwd")
             (view_after (changeDirectory env newPath v))) =
    Writeln target :: rearm target /\
  effects (executeCommand env' command
             (view_after (changeDirectory env newPath v))) =
    [Exec {| exec_command := command; exec_cwd := target;
             exec_env := process_env env' |}].
Proof.
  intros R X D Hext.
  rewrite (changeDirectory_enters env newPath target v R X D).
  split; [reflexivity|]. split.
  - rewrite executeCommand_pwd. reflexivity.
  - rewrite executeCommand_exec by exact Hext. reflexivity.
Qed.

(** X10.  An external command is submitted and [exec] accepts it, and
    while it runs [cd <arg>] is pasted and submitted and succeeds; then
    the command completes.  The command was executed in the directory
    it was submitted from; the [cd] was carried out at once although
    the command was outstanding; and the prompt its completion re-arms
    shows the new directory. *)
Theorem completion_prompt_shows_current_directory
    (env1 env2 env3 env4 : Env) (d1 d3 line arg dir0 target : jsstring)
    (error : option jsstring) (stdout stderr : jsstring) :
  charCodeAt0 d1 = Some 13%N ->
  charCodeAt0 d3 = Some 13%N ->
  trim line <> [] ->
  external (trim line) ->
  child_process_exec env1 (trim line) dir0 = Ok tt ->
  trim arg = arg ->
  arg <> [] ->
  resolved env3 {| currentLine := lit "cd " ++ arg; cwd := dir0 |} arg
    = Ok target ->
  fs_existsSync env3 target = true ->
  fs_statSync_isDirectory env3 target = Ok true ->
  run [(env1, Input d1); (env2, Input (lit "cd " ++ arg));
       (env3, Input d3); (env4, ExecDone 0 error stdout stderr)]
      {| view := {| currentLine := line; cwd := dir0 |}; inflight := [] |} =
  ({| view := {| currentLine := []; cwd := target |}; inflight := [] |},
   [Write CRLF;
    Exec {| exec_command := trim line; exec_cwd := dir0;
            exec_env := process_env env1 |}]
   ++ [Write (lit "cd " ++ arg)]
   ++ (Write CRLF :: rearm target)
   ++ effects (execCallback error stdout stderr
                 {| currentLine := []; cwd := target |})) /\
  exists shown,
    effects (execCallback error stdout stderr
               {| currentLine := []; cwd := target |}) =
    shown ++ rearm target.
Proof.
  intros C1 C3 NE Hext Acc Targ NEarg R X D. split.
  - (* Enter: the command is started from [dir0] *)
    pose proof (executeCommand_exec env1 (trim line)
                  {| currentLine := line; cwd := dir0 |} Hext) as E1.
    cbn [cwd] in E1. rewrite Acc in E1.
    pose proof (handleInput_enter_dispatch env1 d1
                  {| currentLine := line; cwd := dir0 |} _ _ C1 NE E1) as H1.
    assert (S1 : step env1 (Input d1)
                   {| view := {| currentLine := line; cwd := dir0 |};
                      inflight := [] |} =
                 ({| view := {| currentLine := []; cwd := dir0 |};
                     inflight := [{| exec_command := trim line;
                                     exec_cwd := dir0;
                                     exec_env := process_env env1 |}] |},
                  [Write CRLF;
                   Exec {| exec_command := trim line; exec_cwd := dir0;
                           exec_env := process_env env1 |}])).
    { simpl. simpl in H1. rewrite H1. unfold after, accepted. simpl.
      rewrite Acc. reflexivity. }
    rewrite (run_cons env1 (Input d1) _ _ _ _ S1).
    (* the paste *)
    rewrite (run_cons env2 (Input (lit "cd " ++ arg)) _ _ _ _
               (step_input env2 (lit "cd " ++ arg) _ _ _
                  (handleInputWith_printable _ (lit "cd " ++ arg) _ eq_refl)
                  eq_refl)).
    cbn [view currentLine cwd inflight app].
    (* Enter: [cd] *)
    pose proof (trim_cd_line arg Targ NEarg) as Tline.
    assert (H3 : handleInput env3 d3
                   {| currentLine := lit "cd " ++ arg; cwd := dir0 |} =
                 (Ok tt, {| currentLine := []; cwd := target |},
                  Write CRLF :: rearm target)).
    { apply (handleInput_enter_dispatch env3 d3
               {| currentLine := lit "cd " ++ arg; cwd := dir0 |}
               {| currentLine := lit "cd " ++ arg; cwd := target |}
               (rearm target) C3).
      - cbn [currentLine]. rewrite Tline. discriminate.
      - cbn [currentLine]. rewrite Tline, executeCommand_cd, Targ.
        exact (changeDirectory_enters env3 arg target _ R X D). }
    rewrite (run_cons env3 (Input d3) _ _ _ _
               (step_input env3 d3
                  {| view := {| currentLine := lit "cd " ++ arg;
                                cwd := dir0 |};
                     inflight := [{| exec_command := trim line;
                                     exec_cwd := dir0;
                                     exec_env := process_env env1 |}] |}
                  _ _ H3 eq_refl)).
    cbn [view currentLine cwd inflight].
    (* completion *)
    pose proof (execCallback_starts_nothing error stdout stderr
                  {| currentLine := []; cwd := target |}) as S4.
    pose proof (execCallback_effects error stdout stderr
                  {| currentLine := []; cwd := target |}) as E4.
    cbn [run step nth_error inflight view remove_nth].
    unfold effects in *.
    destruct (execCallback error stdout stderr
                {| currentLine := []; cwd := target |}) as [[r4 v4] out4].
    inversion E4 as [[Hr Hv Hout]]; subst r4 v4. cbn [after fst snd app] in *.
    rewrite <- Hout, S4, app_nil_r. reflexivity.
  - rewrite execCallback_effects. unfold effects, snd.
    eexists. rewrite !app_assoc. reflexivity.
Qed.

End AcrossCommands.

(* ===================================================================== *)
(** ** Settings that reach the engine *)
(* ===================================================================== *)

Section Settings.

Lemma or_else_nonempty (value fallback : jsstring) :
  fallback <> [] -> or_else value fallback <> [].
Proof.
  intros F. unfold or_else. destruct value; [exact F | discriminate].
Qed.

Lemma DEFAULT_shell_nonempty (platform : jsstring) (e : ProcessEnv) :
  DEFAULT_shell platform e <> [].
Proof.
  unfold DEFAULT_shell. destruct (streq platform (lit "win32")).
  - discriminate.
  - destruct (getenv e (lit "SHELL")) as [s|]; [|discriminate].
    apply or_else_nonempty. discriminate.
Qed.

(** X11.  The Startup Directory field is stored as typed, and a view
    constructed afterwards reads it so: a value that is not blank makes
    the view start in that value, trimmed, without consulting the
    environment; a blank value (empty or white space only) makes it
    start in [HOME] when that is set and not empty, else in
    [USERPROFILE] when that is set and not empty, else in what
    [os.homedir()] answers, whatever that is.  Construction raises only
    in the last case, when [os.homedir()] raises. *)
Theorem startup_directory_setting (value : jsstring) (env : Env) :
  (trim value <> [] ->
   constructor (startupDirectory_onChange value) env =
   Ok {| currentLine := []; cwd := trim value |}) /\
  (forall h, trim value = [] ->
     env_truthy (process_env env) (lit "HOME") = Some h ->
     constructor (startupDirectory_onChange value) env =
     Ok {| currentLine := []; cwd := h |}) /\
  (forall u, trim value = [] ->
     env_truthy (process_env env) (lit "HOME") = None ->
     env_truthy (process_env env) (lit "USERPROFILE") = Some u ->
     constructor (startupDirectory_onChange value) env =
     Ok {| currentLine := []; cwd := u |}) /\
  (forall h, trim value = [] ->
     env_truthy (process_env env) (lit "HOME") = None ->
     env_truthy (process_env env) (lit "USERPROFILE") = None ->
     os_homedir env = Ok h ->
     constructor (startupDirectory_onChange value) env =
     Ok {| currentLine := []; cwd := h |}) /\
  (forall message,
     constructor (startupDirectory_onChange value) env = Throw message <->
     trim value = [] /\
     env_truthy (process_env env) (lit "HOME") = None /\
     env_truthy (process_env env) (lit "USERPROFILE") = None /\
     os_homedir env = Throw message).
Proof.
  unfold constructor, startupDirectory_onChange, home. simpl.
  split; [|split; [|split; [|split]]].
  - intros NE. assert (V : value <> []).
    { intros E. apply NE. rewrite E. reflexivity. }
    apply truthy_true in NE, V. rewrite V, NE. reflexivity.
  - intros h B H. apply truthy_false in B.
    rewrite B, andb_false_r, H. reflexivity.
  - intros u B H U. apply truthy_false in B.
    rewrite B, andb_false_r, H, U. reflexivity.
  - intros h B H U O. apply truthy_false in B.
    rewrite B, andb_false_r, H, U, O. reflexivity.
  - intros message. split.
    + destruct (truthy value && truthy (trim value)) eqn:T; [discriminate|].
      assert (B : trim value = []).
      { apply truthy_false. destruct (truthy (trim value)) eqn:TT;
          [|reflexivity].
        destruct value; [discriminate TT|]. discriminate T. }
      destruct (env_truthy (process_env env) (lit "HOME")); [discriminate|].
      destruct (env_truthy (process_env env) (lit "USERPROFILE"));
        [discriminate|].
      destruct (os_homedir env) as [h|m]; [discriminate|].
      intros E. inversion E. auto.
    + intros (B & H & U & O). apply truthy_false in B.
      rewrite B, andb_false_r, H, U, O. reflexivity.
Qed.

(** X12.  The Shell Path, Font Family and Selection Color fields never
    store the empty string: a non-empty value is stored as typed, an
    emptied field stores the default, and the defaults are not empty;
    the default shell is [powershell.exe] on [win32] and elsewhere
    [SHELL] when that is set and not empty, else [/bin/bash]. *)
Theorem text_settings_never_empty (platform : jsstring) (e : ProcessEnv)
    (value : jsstring) :
  shell_onChange platform e value <> [] /\
  fontFamily_onChange value <> [] /\
  selectionColor_onChange value <> [] /\
  (value <> [] ->
   shell_onChange platform e value = value /\
   fontFamily_onChange value = value /\
   selectionColor_onChange value = value) /\
  (platform = lit "win32" ->
   shell_onChange platform e [] = lit "powershell.exe") /\
  (forall s, platform <> lit "win32" -> getenv e (lit "SHELL") = Some s ->
     s <> [] -> shell_onChange platform e [] = s) /\
  (platform <> lit "win32" ->
   getenv e (lit "SHELL") = None \/ getenv e (lit "SHELL") = Some [] ->
   shell_onChange platform e [] = lit "/bin/bash").
Proof.
  unfold shell_onChange, fontFamily_onChange, selectionColor_onChange.
  split; [|split; [|split; [|split; [|split; [|split]]]]].
  - apply or_else_nonempty, DEFAULT_shell_nonempty.
  - apply or_else_nonempty. discriminate.
  - apply or_else_nonempty. discriminate.
  - intros NE. unfold or_else. apply truthy_true in NE. rewrite NE. auto.
  - intros ->. reflexivity.
  - intros s NW S NE. apply streq_false in NW. apply truthy_true in NE.
    unfold or_else at 1. simpl. unfold DEFAULT_shell, or_else.
    rewrite NW, S, NE. reflexivity.
  - intros NW S. apply streq_false in NW.
    unfold or_else at 1. simpl. unfold DEFAULT_shell. rewrite NW.
    destruct S as [-> | ->]; reflexivity.
Qed.

End Settings.

(* ===================================================================== *)
(** ** The properties above on the example machine *)
(* ===================================================================== *)

Ltac prove_external :=
  unfold external;
  repeat split; try discriminate; intros rest E; discriminate E.

(** [ls] typed as a key pair, then [ -la] pasted. *)
Lemma printable_input_accumulates_witness :
  Forall (fun p => printable (snd p) = true)
    [(posix laptop, lit "ls"); (posix laptop, lit " -la")] /\
  run (inputs [(posix laptop, lit "ls"); (posix laptop, lit " -la")]) fresh =
  ({| view := {| currentLine := lit "ls -la"; cwd := lit "/home/u" |};
      inflight := [] |},
   [Write (lit "ls"); Write (lit " -la")]).
Proof.
  assert (F : Forall (fun p => printable (snd p) = true)
                [(posix laptop, lit "ls"); (posix laptop, lit " -la")])
    by (repeat constructor).
  split; [exact F|].
  exact (proj1 (printable_input_accumulates _ fresh F)).
Defined.

(** Five Backspaces on the pending line [abc]. *)
Lemma backspaces_cut_pending_line_witness :
  Forall (fun p => charCodeAt0 (snd p) = Some DEL)
    (repeat (posix laptop, [DEL]) 5) /\
  run (inputs (repeat (posix laptop, [DEL]) 5))
    {| view := {| currentLine := lit "abc"; cwd := lit "/tmp" |};
       inflight := [] |} =
  ({| view := {| currentLine := []; cwd := lit "/tmp" |}; inflight := [] |},
   [erase; erase; erase]).
Proof.
  assert (F : Forall (fun p => charCodeAt0 (snd p) = Some DEL)
                (repeat (posix laptop, [DEL]) 5))
    by (repeat constructor).
  split; [exact F|].
  exact (proj1 (backspaces_cut_pending_line _
                  {| view := {| currentLine := lit "abc"; cwd := lit "/tmp" |};
                     inflight := [] |} F)).
Defined.

(** A character of two code units, then two Backspaces. *)
Lemma typed_chunk_is_erased_witness :
  printable [55357; 56832]%N = true /\
  run (inputs ((posix laptop, [55357; 56832]%N)
               :: repeat (posix laptop, [DEL]) 2)) fresh =
  (fresh, [Write [55357; 56832]%N; erase; erase]).
Proof.
  split; [reflexivity|].
  apply (typed_chunk_is_erased (posix laptop) [55357; 56832]%N
           (repeat (posix laptop, [DEL]) 2) fresh);
    [reflexivity | repeat constructor | reflexivity].
Defined.

(** Ctrl+C on the pending line [rm -rf x], then Enter. *)
Lemma interrupt_discards_pending_line_witness :
  charCodeAt0 [ETX] = Some ETX /\ charCodeAt0 [CR] = Some 13%N /\
  run (inputs [(posix laptop, [ETX]); (posix laptop, [CR])])
    {| view := {| currentLine := lit "rm -rf x"; cwd := lit "/tmp" |};
       inflight := [] |} =
  ({| view := {| currentLine := []; cwd := lit "/tmp" |}; inflight := [] |},
   (Write (lit "^C" ++ CRLF) :: rearm (lit "/tmp"))
     ++ (Write CRLF :: rearm (lit "/tmp"))).
Proof.
  split; [reflexivity|]. split; [reflexivity|].
  apply (interrupt_discards_pending_line (posix laptop) (posix laptop)
           [ETX] [CR]
           {| view := {| currentLine := lit "rm -rf x"; cwd := lit "/tmp" |};
              inflight := [] |}); reflexivity.
Defined.

(** Backspace on the pending line [cd /tmp]. *)
Lemma only_enter_dispatches_witness :
  charCodeAt0 [DEL] <> Some 13%N /\
  cwd (view_after (handleInput (posix laptop) [DEL]
                     {| currentLine := lit "cd /tmp";
                        cwd := lit "/home/u" |})) = lit "/home/u".
Proof.
  split; [discriminate|].
  apply (only_enter_dispatches (posix laptop) [DEL]
           {| currentLine := lit "cd /tmp"; cwd := lit "/home/u" |}).
  discriminate.
Defined.

(** The arrow-up key sends [ESC [ A]. *)
Lemma control_input_is_ignored_witness :
  ignored (ESC :: lit "[A") = true /\
  step (posix laptop) (Input (ESC :: lit "[A")) fresh = (fresh, []).
Proof.
  split; [reflexivity|].
  apply (control_input_is_ignored (posix laptop) (ESC :: lit "[A") fresh).
  reflexivity.
Defined.

(** Enter on a pending line that holds a NUL: the one case that
    raises. *)
Lemma handleInput_raises_only_from_exec_witness :
  exists r v' out,
    handleInput (posix laptop) [CR] nul_pending = (r, v', out) /\
    (cwd v' = cwd nul_pending \/ validated (posix laptop) (cwd v')) /\
    (r = Ok tt /\
     (charCodeAt0 [CR] = Some 13%N \/ charCodeAt0 [CR] = Some ETX ->
      currentLine v' = [])
     \/
     exists message,
       r = Throw message /\
       charCodeAt0 [CR] = Some 13%N /\
       trim (currentLine nul_pending) <> [] /\
       external (trim (currentLine nul_pending)) /\
       child_process_exec (posix laptop) (trim (currentLine nul_pending))
         (cwd nul_pending) = Throw message /\
       v' = nul_pending).
Proof.
  exact (handleInput_raises_only_from_exec (posix laptop) [CR] nul_pending).
Defined.


(** [cd notes] from home, then [ls]. *)
Lemma cd_then_commands_use_new_directory_witness :
  resolved (posix laptop) at_home (lit "notes") = Ok (lit "/home/u/notes") /\
  fs_existsSync (posix laptop) (lit "/home/u/notes") = true /\
  fs_statSync_isDirectory (posix laptop) (lit "/home/u/notes") = Ok true /\
  external (lit "ls") /\
  effects (executeCommand (posix laptop) (lit "ls")
             (view_after (changeDirectory (posix laptop) (lit "notes")
                            at_home))) =
  [Exec {| exec_command := lit "ls"; exec_cwd := lit "/home/u/notes";
           exec_env := w_env laptop |}].
Proof.
  assert (X : external (lit "ls")) by prove_external.
  split; [reflexivity|]. split; [reflexivity|]. split; [reflexivity|].
  split; [exact X|].
  apply (cd_then_commands_use_new_directory (posix laptop) (posix laptop)
           (lit "notes") (lit "/home/u/notes") (lit "ls") at_home);
    [reflexivity | reflexivity | reflexivity | exact X].
Defined.

(** [make] is submitted from home, [cd notes] is pasted and submitted
    while it runs, then [make] fails with a message on stderr. *)
Lemma completion_prompt_shows_current_directory_witness :
  external (trim (lit "make")) /\
  child_process_exec (posix laptop) (trim (lit "make")) (lit "/home/u")
    = Ok tt /\
  trim (lit "notes") = lit "notes" /\
  resolved (posix laptop)
    {| currentLine := lit "cd " ++ lit "notes"; cwd := lit "/home/u" |}
    (lit "notes") = Ok (lit "/home/u/notes") /\
  run [(posix laptop, Input [CR]);
       (posix laptop, Input (lit "cd " ++ lit "notes"));
       (posix laptop, Input [CR]);
       (posix laptop,
        ExecDone 0 (Some (lit "Command failed: make")) []
          (lit "make: no targets"))]
      {| view := {| currentLine := lit "make"; cwd := lit "/home/u" |};
         inflight := [] |} =
  ({| view := {| currentLine := []; cwd := lit "/home/u/notes" |};
      inflight := [] |},
   [Write CRLF; Exec (from_home (lit "make"));
    Write (lit "cd notes");
    Write CRLF; Write (promptText true (lit "/home/u/notes")); ScrollToBottom;
    Write (red (lit "make: no targets"));
    Write (promptText true (lit "/home/u/notes")); ScrollToBottom]).
Proof.
  assert (X : external (trim (lit "make"))) by prove_external.
  split; [exact X|]. split; [reflexivity|]. split; [reflexivity|].
  split; [reflexivity|].
  exact (proj1 (completion_prompt_shows_current_directory
                  (posix laptop) (posix laptop) (posix laptop) (posix laptop)
                  [CR] [CR] (lit "make") (lit "notes") (lit "/home/u")
                  (lit "/home/u/notes")
                  (Some (lit "Command failed: make")) []
                  (lit "make: no targets")
                  eq_refl eq_refl ltac:(discriminate) X eq_refl eq_refl
                  ltac:(discriminate) eq_refl eq_refl eq_refl)).
Defined.

(** A Startup Directory of blanks: on the example machine, and on a
    machine whose [HOME] is empty and whose [USERPROFILE] is unset. *)
Lemma startup_directory_setting_witness :
  trim (lit "   ") = [] /\
  env_truthy (process_env (posix laptop)) (lit "HOME") = Some (lit "/home/u") /\
  constructor (startupDirectory_onChange (lit "   ")) (posix laptop) =
  Ok at_home /\
  constructor (startupDirectory_onChange (lit "   "))
    (posix {| w_env := [(lit "HOME", [])];
              w_homedir := Ok (lit "/root");
              w_process_cwd := Ok (lit "/");
              w_dirs := [lit "/"]; w_files := [] |}) =
  Ok {| currentLine := []; cwd := lit "/root" |}.
Proof.
  split; [reflexivity|]. split; [reflexivity|]. split.
  - apply (proj1 (proj2 (startup_directory_setting (lit "   ")
                           (posix laptop))) (lit "/home/u")); reflexivity.
  - apply (proj1 (proj2 (proj2 (proj2
             (startup_directory_setting (lit "   ")
                (posix {| w_env := [(lit "HOME", [])];
                          w_homedir := Ok (lit "/root");
                          w_process_cwd := Ok (lit "/");
                          w_dirs := [lit "/"]; w_files := [] |})))))
             (lit "/root")); reflexivity.
Defined.

(** The Shell Path field emptied on a machine without [SHELL]. *)
Lemma text_settings_never_empty_witness :
  lit "linux" <> lit "win32" /\
  shell_onChange (lit "linux") [] [] = lit "/bin/bash".
Proof.
  split; [discriminate|].
  apply (proj2 (proj2 (proj2 (proj2 (proj2 (proj2
           (text_settings_never_empty (lit "linux") [] []))))))).
  - discriminate.
  - left. reflexivity.
Defined.
